(** * GROMACS benchmark log parser: a shallow embedding of
      [scripts/gromacs/parse_gromacs_results.py] and the properties of its
      extractor, collector, reporter and entry point. *)

From Stdlib Require Import Bool Arith ZArith Lia List Ascii String.
From Stdlib Require Import Sorting.Sorted Sorting.Permutation.
From Stdlib Require Import Floats.SpecFloat.
Import ListNotations.

Open Scope string_scope.

(** ** Text

    A Python [str] is modelled by [string]; a character is a code point below
    256 (the Latin-1 range), which is what [ascii] holds. *)

Definition code (c : ascii) : N := N_of_ascii c.

Definition newline : ascii := "010"%char.
Definition nl : string := String newline "".

(** [\d] on such characters: the decimal digits 0-9. *)
Definition is_digit (c : ascii) : bool :=
  (48 <=? code c)%N && (code c <=? 57)%N.

(** [\s] for a [str] pattern: tab, line feed, vertical tab, form feed,
    carriage return, the separators 0x1c-0x1f, space, NEL and no-break
    space. *)
Definition is_space (c : ascii) : bool :=
  ((9 <=? code c)%N && (code c <=? 13)%N)
  || ((28 <=? code c)%N && (code c <=? 32)%N)
  || (code c =? 133)%N || (code c =? 160)%N.

(** [[\d.]]: a digit or a full stop. *)
Definition is_numchar (c : ascii) : bool :=
  is_digit c || Ascii.eqb c "."%char.

(** [.] without DOTALL: anything but a line feed. *)
Definition is_dot (c : ascii) : bool := negb (Ascii.eqb c newline).

Fixpoint allb (p : ascii -> bool) (s : string) : bool :=
  match s with
  | EmptyString => true
  | String c s' => p c && allb p s'
  end.

(** A non-empty run of characters of one class. *)
Definition run_of (p : ascii -> bool) (s : string) : bool :=
  allb p s && negb (String.eqb s "").

(** [starts p s]: [s] is not empty and its first character is in the class. *)
Definition starts (p : ascii -> bool) (s : string) : bool :=
  match s with
  | EmptyString => false
  | String c _ => p c
  end.

(** [needle in hay]. *)
Fixpoint contains (needle hay : string) : bool :=
  prefix needle hay ||
  match hay with
  | EmptyString => false
  | String _ hay' => contains needle hay'
  end.

Fixpoint take (n : nat) (s : string) : string :=
  match n, s with
  | S n', String c s' => String c (take n' s')
  | _, _ => EmptyString
  end.

Fixpoint drop (n : nat) (s : string) : string :=
  match n, s with
  | S n', String _ s' => drop n' s'
  | _, _ => s
  end.

Fixpoint repeat_char (c : ascii) (n : nat) : string :=
  match n with
  | O => EmptyString
  | S n' => String c (repeat_char c n')
  end.

(** ** Exceptions *)

Inductive exn : Type :=
| ValueError (msg : string)
| OSError (msg : string)
| UnicodeDecodeError (msg : string).

Inductive outcome (A : Type) : Type :=
| Ok (a : A)
| Raise (e : exn).
Arguments Ok {A} a.
Arguments Raise {A} e.

Definition bind {A B : Type} (m : outcome A) (f : A -> outcome B) : outcome B :=
  match m with
  | Ok a => f a
  | Raise e => Raise e
  end.

Notation "x <- m ;; k" := (bind m (fun x => k))
  (at level 61, m at next level, right associativity).

(** ** The fragment of [re] the script uses

    Literal text, greedy repetition of a one-character class ([c*], [c+]),
    capturing groups and concatenation. *)

Inductive regex : Type :=
| Lit (l : string)
| Rep0 (p : ascii -> bool)
| Rep1 (p : ascii -> bool)
| Grp (r : regex)
| Cat (r1 r2 : regex).

Infix ";;;" := Cat (at level 60, right associativity).

(** [strip l s]: [s] without its prefix [l], if it has it. *)
Fixpoint strip (l s : string) : option string :=
  match l with
  | EmptyString => Some s
  | String a l' =>
      match s with
      | EmptyString => None
      | String b s' => if Ascii.eqb a b then strip l' s' else None
      end
  end.

(** Greedy repetition with backtracking: take as many characters of the
    class as there are, and give them back one at a time until the rest of
    the pattern (the continuation [k]) matches. *)
Fixpoint rep {A : Type} (p : ascii -> bool) (k : string -> option A)
    (s : string) : option A :=
  match s with
  | EmptyString => k s
  | String c s' =>
      if p c then
        match rep p k s' with
        | Some a => Some a
        | None => k s
        end
      else k s
  end.

(** The matcher, in continuation-passing style. [caps] are the texts of the
    groups closed so far, in order. *)
Fixpoint rmatch {A : Type} (r : regex) (caps : list string) (s : string)
    (k : list string -> string -> option A) : option A :=
  match r with
  | Lit l =>
      match strip l s with
      | Some s' => k caps s'
      | None => None
      end
  | Rep0 p => rep p (k caps) s
  | Rep1 p =>
      match s with
      | String c s' => if p c then rep p (k caps) s' else None
      | EmptyString => None
      end
  | Grp r1 =>
      rmatch r1 caps s
        (fun caps' s' =>
           k (caps' ++ [take (length s - length s') s])%list s')
  | Cat r1 r2 =>
      rmatch r1 caps s (fun caps' s' => rmatch r2 caps' s' k)
  end.

(** [match_at r s]: the groups of the match of [r] that starts at the
    beginning of [s]. *)
Definition match_at (r : regex) (s : string) : option (list string) :=
  rmatch r [] s (fun caps _ => Some caps).

(** [re.search]: the match at the leftmost position that has one. *)
Fixpoint search (r : regex) (s : string) : option (list string) :=
  match match_at r s with
  | Some caps => Some caps
  | None =>
      match s with
      | EmptyString => None
      | String _ s' => search r s'
      end
  end.

(** [match.group(i)], groups counted from 1. *)
Definition group (i : nat) (caps : list string) : string :=
  nth (i - 1) caps "".

(** The patterns of [parse_gromacs_log]. *)

(** [exclusive_numa(\d+)] *)
Definition re_numa_name : regex := Lit "exclusive_numa" ;;; Grp (Rep1 is_digit).

(** [shared_task(\d+)] *)
Definition re_task_name : regex := Lit "shared_task" ;;; Grp (Rep1 is_digit).

(** [cpubind:\s*(\d+)] *)
Definition re_cpubind : regex :=
  Lit "cpubind:" ;;; Rep0 is_space ;;; Grp (Rep1 is_digit).

(** [CUDA_VISIBLE_DEVICES:\s*(\d+)] *)
Definition re_gpu : regex :=
  Lit "CUDA_VISIBLE_DEVICES:" ;;; Rep0 is_space ;;; Grp (Rep1 is_digit).

(** [Performance:\s+([\d.]+)\s+ns/day] *)
Definition re_perf : regex :=
  Lit "Performance:" ;;; Rep1 is_space ;;; Grp (Rep1 is_numchar) ;;;
  Rep1 is_space ;;; Lit "ns/day".

(** [([\d.]+)\s+ns/day] *)
Definition re_perf_alt : regex :=
  Grp (Rep1 is_numchar) ;;; Rep1 is_space ;;; Lit "ns/day".

(** [Time:\s+([\d.]+)\s+([\d.]+)\s+([\d.]+)] *)
Definition re_time : regex :=
  Lit "Time:" ;;; Rep1 is_space ;;; Grp (Rep1 is_numchar) ;;;
  Rep1 is_space ;;; Grp (Rep1 is_numchar) ;;;
  Rep1 is_space ;;; Grp (Rep1 is_numchar).

(** [wall\s+([\d.]+)\s+s], the tail of the next pattern. *)
Definition re_wall : regex :=
  Lit "wall" ;;; Rep1 is_space ;;; Grp (Rep1 is_numchar) ;;;
  Rep1 is_space ;;; Lit "s".

(** [Finished mdrun.*\n.*wall\s+([\d.]+)\s+s]; the MULTILINE flag changes
    only the anchors, and the pattern has none. *)
Definition re_finished : regex :=
  Lit "Finished mdrun" ;;; Rep0 is_dot ;;; Lit nl ;;; Rep0 is_dot ;;; re_wall.

(** ** [int] and [float] of captured text *)

Definition digit_val (c : ascii) : Z := Z.of_N (code c) - 48.

Fixpoint digits_val (acc : Z) (s : string) : Z :=
  match s with
  | EmptyString => acc
  | String c s' => digits_val (10 * acc + digit_val c) s'
  end.

(** The interpreter's default limit on the length of a decimal text that
    [int] converts ([sys.get_int_max_str_digits()]). *)
Definition int_max_str_digits : nat := 4300.

(** The value of a run of decimal digits. *)
Definition int_val (s : string) : Z := digits_val 0 s.

(** [int(s)] for the text of a [\d+] group: the decimal value; a ValueError
    when [s] is not a non-empty run of digits or is longer than the limit. *)
Definition py_int (s : string) : outcome Z :=
  if negb (run_of is_digit s) then
    Raise (ValueError "invalid literal for int() with base 10")
  else if (int_max_str_digits <? length s)%nat then
    Raise (ValueError "Exceeds the limit for integer string conversion")
  else Ok (int_val s).

(** Python floats are IEEE 754 binary64 numbers. *)
Definition float : Type := spec_float.
Definition prec : Z := 53.
Definition emax : Z := 1024.

Definition fzero : float := S754_zero false.
Definition fadd : float -> float -> float := SFadd prec emax.
Definition fdiv : float -> float -> float := SFdiv prec emax.

(** The binary64 number nearest to [n / d] (ties to even), for [0 <= n] and
    [0 < d]. *)
Definition float_of_ratio (n d : Z) : float :=
  match n with
  | Zpos _ =>
      let '(m, e, l) := SFdiv_core_binary prec emax n 0 d 0 in
      binary_round_aux prec emax false m e l
  | _ => fzero
  end.

(** [float(i)] for an integer. *)
Definition float_of_Z (i : Z) : float := binary_normalize prec emax i 0 false.

(** The text before the first full stop, and the text after it if there is
    one. *)
Fixpoint split_dot (s : string) : string * option string :=
  match s with
  | EmptyString => (EmptyString, None)
  | String c s' =>
      if Ascii.eqb c "."%char then (EmptyString, Some s')
      else let '(a, b) := split_dot s' in (String c a, b)
  end.

(** The text of a [[\d.]+] group is a decimal literal when it has digits
    around at most one full stop, and at least one digit. *)
Definition decimal_literal (s : string) : bool :=
  let '(ip, fp) := split_dot s in
  let fr := match fp with Some f => f | None => EmptyString end in
  allb is_digit ip && allb is_digit fr
  && negb ((length ip + length fr =? 0)%nat).

(** The binary64 number nearest to the value of a decimal literal. *)
Definition float_val (s : string) : float :=
  let '(ip, fp) := split_dot s in
  let fr := match fp with Some f => f | None => EmptyString end in
  float_of_ratio (digits_val 0 (ip ++ fr)) (10 ^ Z.of_nat (length fr)).

(** [float(s)] for the text of a [[\d.]+] group: the nearest binary64 number
    to the decimal literal, a ValueError when the text is not one. *)
Definition py_float (s : string) : outcome float :=
  if decimal_literal s then Ok (float_val s)
  else Raise (ValueError "could not convert string to float").

(** Truth value of a float: every float but the two zeros. *)
Definition float_truthy (x : float) : bool :=
  match x with
  | S754_zero _ => false
  | _ => true
  end.

(** ** The record built for one log file (the dict of [parse_gromacs_log]) *)

Record LogRecord : Type := mkRecord {
  file : string;
  type : string;
  numa_node : option Z;
  task_id : option Z;
  gpu_id : option Z;
  performance_ns_day : option float;
  wall_time_s : option float;
  core_time_s : option float
}.

Definition set_numa_node (r : LogRecord) (v : Z) : LogRecord :=
  mkRecord (file r) (type r) (Some v) (task_id r) (gpu_id r)
    (performance_ns_day r) (wall_time_s r) (core_time_s r).

Definition set_task_id (r : LogRecord) (v : Z) : LogRecord :=
  mkRecord (file r) (type r) (numa_node r) (Some v) (gpu_id r)
    (performance_ns_day r) (wall_time_s r) (core_time_s r).

Definition set_gpu_id (r : LogRecord) (v : Z) : LogRecord :=
  mkRecord (file r) (type r) (numa_node r) (task_id r) (Some v)
    (performance_ns_day r) (wall_time_s r) (core_time_s r).

Definition set_performance (r : LogRecord) (v : float) : LogRecord :=
  mkRecord (file r) (type r) (numa_node r) (task_id r) (gpu_id r)
    (Some v) (wall_time_s r) (core_time_s r).

Definition set_wall_time (r : LogRecord) (v : float) : LogRecord :=
  mkRecord (file r) (type r) (numa_node r) (task_id r) (gpu_id r)
    (performance_ns_day r) (Some v) (core_time_s r).

Definition set_core_time (r : LogRecord) (v : float) : LogRecord :=
  mkRecord (file r) (type r) (numa_node r) (task_id r) (gpu_id r)
    (performance_ns_day r) (wall_time_s r) (Some v).

(** [m = re.search(r, s); if m: result[key] = conv(m.group(1))] *)
Definition assign {V : Type} (r : regex) (s : string)
    (conv : string -> outcome V) (set : LogRecord -> V -> LogRecord)
    (result : LogRecord) : outcome LogRecord :=
  match search r s with
  | Some m => v <- conv (group 1 m) ;; Ok (set result v)
  | None => Ok result
  end.

(** Lines 29-37: NUMA node (exclusive) or task ID (shared) from the name. *)
Definition step_name (name : string) (result : LogRecord) : outcome LogRecord :=
  if contains "exclusive" name
  then assign re_numa_name name py_int set_numa_node result
  else assign re_task_name name py_int set_task_id result.

(** Lines 49-59: the performance line, then the looser pattern when the
    field is still None. *)
Definition step_perf (content : string) (result : LogRecord) : outcome LogRecord :=
  result <- assign re_perf content py_float set_performance result ;;
  match performance_ns_day result with
  | None => assign re_perf_alt content py_float set_performance result
  | Some _ => Ok result
  end.

(** Lines 61-65: wall time is group 2 and core time group 1 of the timing
    line; group 3 is not converted. *)
Definition step_time (content : string) (result : LogRecord) : outcome LogRecord :=
  match search re_time content with
  | Some m =>
      w <- py_float (group 2 m) ;;
      c <- py_float (group 1 m) ;;
      Ok (set_core_time (set_wall_time result w) c)
  | None => Ok result
  end.

(** [parse_gromacs_log] after [filepath.read_text()]: the record for a file
    name and the text of the file. *)
Definition extract (name content : string) : outcome LogRecord :=
  let result :=
    mkRecord name (if contains "exclusive" name then "exclusive" else "shared")
      None None None None None None in
  result <- step_name name result ;;
  result <- assign re_cpubind content py_int set_numa_node result ;;
  result <- assign re_gpu content py_int set_gpu_id result ;;
  result <- step_perf content result ;;
  result <- step_time content result ;;
  result <- assign re_finished content py_float set_wall_time result ;;
  Ok result.

(** ** Files and directories

    A directory entry has a name and what [read_text] does on it: the text,
    or the exception raised (an [OSError] for an unreadable entry, a
    [UnicodeDecodeError] for bytes that do not decode). *)

Record entry : Type := mkEntry {
  name : string;
  read_text : outcome string
}.

(** The entries of a directory, in the order the system lists them. *)
Definition directory : Type := list entry.

Definition parse_gromacs_log (filepath : entry) : outcome LogRecord :=
  content <- read_text filepath ;;
  extract (name filepath) content.

(** Matching of a glob pattern against a whole name; [*] is the only
    wildcard in the script's patterns. *)
Fixpoint fnmatch (pat s : string) : bool :=
  match pat with
  | EmptyString => match s with EmptyString => true | _ => false end
  | String c pat' =>
      if Ascii.eqb c "*"%char then
        (fix any (t : string) : bool :=
           fnmatch pat' t ||
           match t with
           | EmptyString => false
           | String _ t' => any t'
           end) s
      else
        match s with
        | String d s' => Ascii.eqb c d && fnmatch pat' s'
        | EmptyString => false
        end
  end.

(** [data_dir.glob(pattern)] *)
Definition glob (data_dir : directory) (pattern : string) : list entry :=
  filter (fun f => fnmatch pattern (name f)) data_dir.

(** [sorted]: a stable sort, here by insertion. *)
Fixpoint insert {A : Type} (le : A -> A -> bool) (x : A) (l : list A) : list A :=
  match l with
  | [] => [x]
  | y :: l' => if le x y then x :: l else y :: insert le x l'
  end.

Fixpoint sorted {A : Type} (le : A -> A -> bool) (l : list A) : list A :=
  match l with
  | [] => []
  | x :: l' => insert le x (sorted le l')
  end.

(** Paths of one directory compare as their names do. *)
Definition path_le (f g : entry) : bool := String.leb (name f) (name g).

(** [str(e)] *)
Definition str_exn (e : exn) : string :=
  match e with
  | ValueError m | OSError m | UnicodeDecodeError m => m
  end.

(** The state of [parse_all_results]: the list [results] and what has been
    printed, one text per call of [print]. *)
Definition collector : Type := (list LogRecord * list string)%type.

(** The body of the inner loop, with its try/except. *)
Definition parse_one (st : collector) (filepath : entry) : collector :=
  let '(results, out) := st in
  match parse_gromacs_log filepath with
  | Ok result =>
      (List.app results [result],
       List.app out ["Parsed: " ++ name filepath])
  | Raise e =>
      (results,
       List.app out ["Error parsing " ++ name filepath ++ ": " ++ str_exn e])
  end.

Definition patterns : list string := ["exclusive_numa*.log"; "shared_task*.log"].

Definition parse_all_results_out (data_dir : directory) : collector :=
  fold_left
    (fun st pattern =>
       fold_left parse_one (sorted path_le (glob data_dir pattern)) st)
    patterns ([], []).

Definition parse_all_results (data_dir : directory) : list LogRecord :=
  fst (parse_all_results_out data_dir).

(** ** Text of numbers *)

Definition digit_char (d : Z) : ascii := ascii_of_N (Z.to_N (48 + d)).

(** The decimal digits of [n >= 0], least significant first, at most [fuel]
    of them. *)
Fixpoint digits_rev (fuel : nat) (n : Z) : string :=
  match fuel with
  | O => EmptyString
  | S fuel' =>
      if (n <? 10)%Z then String (digit_char n) EmptyString
      else String (digit_char (n mod 10)) (digits_rev fuel' (n / 10))
  end.

Fixpoint rev_string (acc s : string) : string :=
  match s with
  | EmptyString => acc
  | String c s' => rev_string (String c acc) s'
  end.

(** [str(n)] for an integer; a number below [2^k] has at most [k] decimal
    digits. *)
Definition str_nat (n : Z) : string :=
  rev_string "" (digits_rev (S (Z.to_nat (Z.log2 n))) n).

Definition str_Z (n : Z) : string :=
  if (n <? 0)%Z then "-" ++ str_nat (- n) else str_nat n.

(** [s.ljust(w)], the alignment [<w] of a format field. *)
Definition ljust (w : nat) (s : string) : string :=
  s ++ repeat_char " "%char (w - length s).

(** [s.rjust(w, '0')] *)
Definition zfill (w : nat) (s : string) : string :=
  repeat_char "0"%char (w - length s) ++ s.

(** The integer nearest to [n / d], ties to even ([0 <= n], [0 < d]). *)
Definition round_half_even (n d : Z) : Z :=
  let q := (n / d)%Z in
  let r := (n mod d)%Z in
  match (2 * r ?= d)%Z with
  | Lt => q
  | Gt => (q + 1)%Z
  | Eq => if Z.even q then q else (q + 1)%Z
  end.

(** [format(x, '.<d>f')]: the exact binary value rounded to [d] decimals. *)
Definition format_f (d : nat) (x : float) : string :=
  match x with
  | S754_nan => "nan"
  | S754_infinity s => if s then "-inf" else "inf"
  | S754_zero s =>
      (if s then "-" else "") ++ "0" ++
      (if (d =? 0)%nat then "" else "." ++ repeat_char "0"%char d)
  | S754_finite s m e =>
      let p := (10 ^ Z.of_nat d)%Z in
      let n :=
        if (0 <=? e)%Z then (Zpos m * p * 2 ^ e)%Z
        else round_half_even (Zpos m * p) (2 ^ (- e)) in
      (if s then "-" else "") ++ str_nat (n / p) ++
      (if (d =? 0)%nat then "" else "." ++ zfill d (str_nat (n mod p)))
  end.

(** ** The reporter *)

(** [x or 0] for an optional integer key. *)
Definition or0 (x : option Z) : Z :=
  match x with
  | Some v => v
  | None => 0%Z
  end.

(** [v if v is not None else 'N/A'], as text. *)
Definition int_or_na (x : option Z) : string :=
  match x with
  | Some v => str_Z v
  | None => "N/A"
  end.

(** [f"{v:.<d>f}" if v else 'N/A']: None and zero both give N/A. *)
Definition float_or_na (d : nat) (x : option float) : string :=
  match x with
  | Some v => if float_truthy v then format_f d v else "N/A"
  | None => "N/A"
  end.

(** [[r[key] for r in l if r[key]]] for the performance key. *)
Fixpoint truthy_perfs (l : list LogRecord) : list float :=
  match l with
  | [] => []
  | r :: l' =>
      match performance_ns_day r with
      | Some v => if float_truthy v then v :: truthy_perfs l' else truthy_perfs l'
      | None => truthy_perfs l'
      end
  end.

(** [sum(perfs)]: the additions from the left, starting from the integer 0,
    each rounded to binary64 (the summation of CPython up to 3.11; later
    versions also carry a correction for the rounding of the partial
    sums). *)
Definition py_sum (perfs : list float) : float := fold_left fadd perfs fzero.

(** [sum(perfs)/len(perfs)] *)
Definition average (perfs : list float) : float :=
  fdiv (py_sum perfs) (float_of_Z (Z.of_nat (List.length perfs))).

(** Lines 116-118 and 132-134: the average line, when [perfs] is not empty. *)
Definition average_lines (l : list LogRecord) : list string :=
  match truthy_perfs l with
  | [] => []
  | perfs => [String newline ("Average: " ++ format_f 3 (average perfs) ++ " ns/day")]
  end.

Definition exclusive_row (r : LogRecord) : string :=
  ljust 6 (int_or_na (numa_node r)) ++ " " ++
  ljust 5 (int_or_na (gpu_id r)) ++ " " ++
  ljust 12 (float_or_na 3 (performance_ns_day r)) ++ " " ++
  ljust 15 (float_or_na 1 (wall_time_s r)).

Definition shared_row (r : LogRecord) : string :=
  ljust 6 (int_or_na (task_id r)) ++ " " ++
  ljust 6 (int_or_na (numa_node r)) ++ " " ++
  ljust 5 (int_or_na (gpu_id r)) ++ " " ++
  ljust 12 (float_or_na 3 (performance_ns_day r)) ++ " " ++
  ljust 15 (float_or_na 1 (wall_time_s r)).

Definition of_type (t : string) (results : list LogRecord) : list LogRecord :=
  filter (fun r => String.eqb (type r) t) results.

Definition by_key (key : LogRecord -> option Z) (a b : LogRecord) : bool :=
  (or0 (key a) <=? or0 (key b))%Z.

Definition rule (c : ascii) (n : nat) : string := repeat_char c n.

Definition exclusive_title : string :=
  String newline "--- Exclusive Queue (NUMA Pinned) ---".

Definition exclusive_header : string :=
  ljust 6 "NUMA" ++ " " ++ ljust 5 "GPU" ++ " " ++ ljust 12 "ns/day" ++ " "
  ++ ljust 15 "Wall Time (s)".

Definition shared_title : string :=
  String newline "--- Shared Queue (SLURM Scheduled) ---".

Definition shared_header : string :=
  ljust 6 "Task" ++ " " ++ ljust 6 "NUMA" ++ " " ++ ljust 5 "GPU" ++ " "
  ++ ljust 12 "ns/day" ++ " " ++ ljust 15 "Wall Time (s)".

Definition banner : string := String newline (rule "="%char 70).

(** What the block of one queue prints: title, header, rule, the rows in
    key order, and the average line. *)
Definition exclusive_block (exclusive : list LogRecord) : list string :=
  match exclusive with
  | [] => []
  | _ =>
      ([exclusive_title; exclusive_header; rule "-"%char 40]
       ++ map exclusive_row (sorted (by_key numa_node) exclusive)
       ++ average_lines exclusive)%list
  end.

Definition shared_block (shared : list LogRecord) : list string :=
  match shared with
  | [] => []
  | _ =>
      ([shared_title; shared_header; rule "-"%char 50]
       ++ map shared_row (sorted (by_key task_id) shared)
       ++ average_lines shared)%list
  end.

(** [print_summary]: the texts printed, one per call of [print]. *)
Definition print_summary (results : list LogRecord) : list string :=
  match results with
  | [] => ["No results found."]
  | _ =>
      ([banner; "GROMACS Benchmark Results Summary"; rule "="%char 70]
       ++ exclusive_block (of_type "exclusive" results)
       ++ shared_block (of_type "shared" results)
       ++ [banner])%list
  end.

(** ** The command line

    [argparse] on the parser of [main]: [-h]/[--help], [--data-dir PATH],
    [--output PATH] and [--quiet], no positional argument. *)

Inductive action : Type := Help | DataDir | Output | Quiet.

Definition long_options : list (string * action) :=
  [("--help", Help); ("--data-dir", DataDir); ("--output", Output);
   ("--quiet", Quiet)].

(** How [_parse_optional] reads one argument: a plain argument ([A]), an
    option with the text given after [=] or glued to [-h] ([O]), a text that
    looks like an option the parser does not have, or an ambiguous prefix. *)
Inductive arg_class : Type :=
| Positional
| Option (a : action) (explicit_arg : option string)
| Unknown
| Ambiguous.

(** Split at the first [=]. *)
Fixpoint split_eq (s : string) : string * option string :=
  match s with
  | EmptyString => (EmptyString, None)
  | String c s' =>
      if Ascii.eqb c "="%char then (EmptyString, Some s')
      else let '(a, b) := split_eq s' in (String c a, b)
  end.

(** [_negative_number_matcher]: [^-\d+$|^-\d*\.\d+$], where [$] also
    matches before a final line feed. *)
Definition negative_number (s : string) : bool :=
  match s with
  | String "-" t =>
      let body :=
        if (0 <? length t)%nat && String.eqb (drop (length t - 1) t) nl
        then take (length t - 1) t else t in
      let '(ip, fp) := split_dot body in
      match fp with
      | None => allb is_digit ip && (0 <? length ip)%nat
      | Some fr => allb is_digit ip && allb is_digit fr && (0 <? length fr)%nat
      end
  | _ => false
  end.

Definition parse_optional (arg : string) : arg_class :=
  match arg with
  | EmptyString => Positional
  | String c rest =>
      if negb (Ascii.eqb c "-"%char) then Positional
      else if String.eqb arg "-h" then Option Help None
      else if (length arg =? 1)%nat then Positional
      else
        let '(before, explicit_arg) := split_eq arg in
        if prefix "--" arg then
          (* a long option, perhaps abbreviated, perhaps with [=text] *)
          match filter (fun o => prefix before (fst o)) long_options with
          | [o] => Option (snd o) explicit_arg
          | _ :: _ :: _ => Ambiguous
          | [] => if contains " " arg then Positional else Unknown
          end
        else if String.eqb before "-h" && negb (String.eqb arg before) then
          (* [-h=text] *)
          Option Help explicit_arg
        else if prefix "-h" arg then
          (* [-h] with text glued to it *)
          Option Help (Some (drop 2 arg))
        else if negative_number arg then Positional
        else if contains " " arg then Positional
        else Unknown
  end.

(** The namespace [parse_args] returns. A value given as [--option=--] is
    left as an empty list by [_get_values], which removes the [--]: [None]
    stands for it in [data_dir], and in [output] also for the default None
    (both are false values, and [main] only tests [output] for truth). *)
Record Namespace : Type := mkNamespace {
  data_dir : option string;
  output : option string;
  quiet : bool
}.

(** The value an option stores for the text [v]. *)
Definition get_values (v : string) : option string :=
  if String.eqb v "--" then None else Some v.

Definition store (a : action) (v : option string) (ns : Namespace) : Namespace :=
  match a with
  | DataDir => mkNamespace v (output ns) (quiet ns)
  | _ => mkNamespace (data_dir ns) v (quiet ns)
  end.

Inductive parsed : Type :=
| Args (ns : Namespace)
| ParserExit (status : Z).

(** [-h] with text glued to it: each further character has to be another
    short option, and [h] is the only one. *)
Fixpoint help_cluster (explicit_arg : string) : parsed :=
  match explicit_arg with
  | EmptyString => ParserExit 2
  | String c rest =>
      if Ascii.eqb c "h"%char then
        match rest with
        | EmptyString => ParserExit 0
        | _ => help_cluster rest
        end
      else ParserExit 2
  end.

(** The second pass of [_parse_known_args] over the arguments that are left,
    [sep] telling whether [--] has been passed; [extras] tells whether an
    argument has been left unrecognized. *)
Fixpoint consume (args : list string) (sep : bool) (ns : Namespace)
    (extras : bool) : parsed :=
  match args with
  | [] => if extras then ParserExit 2 else Args ns
  | arg :: rest =>
      if sep || String.eqb arg "--" then consume rest true ns true
      else
        match parse_optional arg with
        | Positional | Unknown => consume rest sep ns true
        | Ambiguous => ParserExit 2
        | Option Help None => ParserExit 0
        | Option Help (Some e) =>
            if prefix "--" arg then ParserExit 2 else help_cluster e
        | Option Quiet None =>
            consume rest sep (mkNamespace (data_dir ns) (output ns) true) extras
        | Option Quiet (Some _) => ParserExit 2
        | Option a (Some v) => consume rest sep (store a (get_values v) ns) extras
        | Option a None =>
            match rest with
            | v :: rest' =>
                if String.eqb v "--" then ParserExit 2
                else
                  match parse_optional v with
                  | Positional => consume rest' sep (store a (Some v) ns) extras
                  | _ => ParserExit 2
                  end
            | [] => ParserExit 2
            end
        end
  end.

(** The first pass reads every argument before [--], and an ambiguous one
    ends the run there. *)
Fixpoint has_ambiguous (args : list string) : bool :=
  match args with
  | [] => false
  | arg :: rest =>
      if String.eqb arg "--" then false
      else
        match parse_optional arg with
        | Ambiguous => true
        | _ => has_ambiguous rest
        end
  end.

(** [parser.parse_args()]: the namespace, or the exit of the parser (status
    0 after the help text, 2 after a usage error). [default_dir] is the
    default of [--data-dir]. *)
Definition parse_args (default_dir : string) (argv : list string) : parsed :=
  if has_ambiguous argv then ParserExit 2
  else consume argv false (mkNamespace (Some default_dir) None false) false.

(** ** The entry point *)

(** What a run of the script sees of the machine: the default of
    [--data-dir] (computed from the place of the script), the entries of a
    path ([None] when the path does not exist, no entry when it is not a
    directory), and whether a path can be written. Paths are the texts of
    the command line. *)
Record world : Type := mkWorld {
  default_dir : string;
  listing : string -> option directory;
  writable : string -> bool
}.

(** What a run leaves: the texts the script printed and the exit status of
    the process (the help and usage texts of [argparse] are not part of
    [stdout] here). *)
Record run : Type := mkRun {
  stdout : list string;
  status : Z
}.

(** The status of a process that ends on an exception nobody caught. *)
Definition uncaught : Z := 1%Z.

(** Lines 159-161: write the JSON file when [--output] was given. *)
Definition save (w : world) (out : list string) (target : option string) : run :=
  match target with
  | None => mkRun out 0
  | Some path =>
      if writable w path
      then mkRun (List.app out [String newline ("Results saved to: " ++ path)]) 0
      else mkRun out uncaught
  end.

Definition main (w : world) (argv : list string) : run :=
  match parse_args (default_dir w) argv with
  | ParserExit st => mkRun [] st
  | Args args =>
      match data_dir args with
      | None => mkRun [] uncaught
      | Some dir =>
          match listing w dir with
          | None =>
              mkRun
                ["Data directory not found: " ++ dir;
                 "Run the GROMACS benchmarks first to generate results."] 0
          | Some entries =>
              let '(results, out) := parse_all_results_out entries in
              let out :=
                if quiet args then out
                else List.app out (print_summary results) in
              save w out (output args)
          end
      end
  end.

(** ** What the patterns mean

    [matches r m caps]: the text [m] is in the language of [r], and [caps]
    are the texts of its groups. The matcher is compared with this relation
    below. *)

Inductive matches : regex -> string -> list string -> Prop :=
| M_Lit l : matches (Lit l) l []
| M_Rep0 p m : allb p m = true -> matches (Rep0 p) m []
| M_Rep1 p m : allb p m = true -> m <> "" -> matches (Rep1 p) m []
| M_Grp r m caps : matches r m caps -> matches (Grp r) m (caps ++ [m])%list
| M_Cat r1 r2 m1 m2 c1 c2 :
    matches r1 m1 c1 -> matches r2 m2 c2 ->
    matches (Cat r1 r2) (m1 ++ m2) (c1 ++ c2)%list.

(** [r] has a match in [s] right after the prefix [pre]. *)
Definition occurs_at (r : regex) (s pre : string) : Prop :=
  exists m post caps, s = pre ++ m ++ post /\ matches r m caps.

(** [r] has no match anywhere in [s]. *)
Definition absent (r : regex) (s : string) : Prop :=
  forall pre, ~ occurs_at r s pre.

(** No match of [r] in [s] starts before the end of [pre]. *)
Definition leftmost (r : regex) (s pre : string) : Prop :=
  forall pre', occurs_at r s pre' -> length pre <= length pre'.

(** No match of [r] starts further on the line that begins with [mid]:
    whenever [mid ++ t] is cut after a longer text [mid'] without line feed,
    [r] does not match right there. *)
Definition last_on_line (r : regex) (mid t : string) : Prop :=
  forall mid' t',
    mid ++ t = mid' ++ t' -> allb is_dot mid' = true ->
    length mid < length mid' -> ~ occurs_at r t' "".


(** The text of group [i] of the match that [re.search] finds, if any. *)
Definition captured (r : regex) (s : string) (i : nat) : option string :=
  option_map (group i) (search r s).

(** ** What ends in each field, and whether it converts *)

(** The text that ends in the performance field: group 1 of the primary
    pattern, of the looser one when the primary has no match. *)
Definition perf_text (content : string) : option string :=
  match captured re_perf content 1 with
  | Some t => Some t
  | None => captured re_perf_alt content 1
  end.

(** The text that ends in the wall time: the override when it matches, else
    group 2 of the timing line. *)
Definition wall_text (content : string) : option string :=
  match captured re_finished content 1 with
  | Some t => Some t
  | None => captured re_time content 2
  end.

(** The text that ends in the NUMA node: the binding report when it
    matches, else the number in the name of an exclusive file. *)
Definition numa_text (name content : string) : option string :=
  match captured re_cpubind content 1 with
  | Some t => Some t
  | None =>
      if contains "exclusive" name then captured re_numa_name name 1 else None
  end.

Definition task_text (name : string) : option string :=
  if contains "exclusive" name then None else captured re_task_name name 1.

(** The text whose conversion by [int] comes first: the number in the
    name. *)
Definition name_text (name : string) : option string :=
  if contains "exclusive" name then captured re_numa_name name 1
  else captured re_task_name name 1.

Definition int_okb (o : option string) : bool :=
  match o with
  | Some t => negb (int_max_str_digits <? length t)%nat
  | None => true
  end.

Definition float_okb (o : option string) : bool :=
  match o with
  | Some t => decimal_literal t
  | None => true
  end.

(** Every text that [extract] converts is one that converts: the digit
    groups are within the limit of [int], the number groups are decimal
    literals. *)
Definition all_convert (name content : string) : bool :=
  int_okb (name_text name)
  && int_okb (captured re_cpubind content 1)
  && int_okb (captured re_gpu content 1)
  && float_okb (perf_text content)
  && float_okb (captured re_time content 2)
  && float_okb (captured re_time content 1)
  && float_okb (captured re_finished content 1).

(** The record with every optional field unset. *)
Definition bare_record (name : string) : LogRecord :=
  mkRecord name (if contains "exclusive" name then "exclusive" else "shared")
    None None None None None None.

(** ** The lines of the timing patterns, and where a match is the first *)

(** The content has a full timing line: [Time:] and three numbers, each
    after white space. *)
Definition timing_line (content : string) : Prop :=
  exists pre ws1 n1 ws2 n2 ws3 n3 post,
    content = pre ++ "Time:" ++ ws1 ++ n1 ++ ws2 ++ n2 ++ ws3 ++ n3 ++ post
    /\ run_of is_space ws1 = true /\ run_of is_numchar n1 = true
    /\ run_of is_space ws2 = true /\ run_of is_numchar n2 = true
    /\ run_of is_space ws3 = true /\ run_of is_numchar n3 = true.

(** The content has a line with [Finished mdrun] and, on the next line,
    [wall], white space, a number, white space and [s]. *)
Definition finished_pair (content : string) : Prop :=
  exists pre tail mid ws1 num ws2 post,
    content = pre ++ "Finished mdrun" ++ tail ++ nl ++ mid ++ "wall" ++ ws1
                  ++ num ++ ws2 ++ "s" ++ post
    /\ allb is_dot tail = true /\ allb is_dot mid = true
    /\ run_of is_space ws1 = true /\ run_of is_numchar num = true
    /\ run_of is_space ws2 = true.

(** [r] matches at none of the first [n] places of [s]. *)
Fixpoint no_match_in (r : regex) (s : string) (n : nat) {struct n} : bool :=
  match n with
  | O => true
  | S n' =>
      match match_at r s with
      | Some _ => false
      | None =>
          match s with
          | EmptyString => true
          | String _ s' => no_match_in r s' n'
          end
      end
  end.

(** [r] matches at no later place of the line that [t] starts. *)
Fixpoint none_later (r : regex) (t : string) : bool :=
  match t with
  | EmptyString => true
  | String c t' =>
      if is_dot c then
        match match_at r t' with
        | Some _ => false
        | None => none_later r t'
        end
      else true
  end.

(** ** What each file brings to the collector *)

(** What one file adds to the results, and what it makes the loop print. *)
Definition record_of (f : entry) : list LogRecord :=
  match parse_gromacs_log f with
  | Ok r => [r]
  | Raise _ => []
  end.

Definition message (f : entry) : string :=
  match parse_gromacs_log f with
  | Ok _ => "Parsed: " ++ name f
  | Raise e => "Error parsing " ++ name f ++ ": " ++ str_exn e
  end.

Definition parses (f : entry) : bool :=
  match parse_gromacs_log f with
  | Ok _ => true
  | Raise _ => false
  end.

(** The name matches one of the two patterns. *)
Definition wanted (f : entry) : bool :=
  fnmatch "exclusive_numa*.log" (name f) || fnmatch "shared_task*.log" (name f).

(** The order of records by file name. *)
Definition by_file (a b : LogRecord) : Prop := String.leb (file a) (file b) = true.

(** ** The mean of a queue *)

(** The values of the records that have a performance (one that is not
    None). *)
Definition non_null_perfs (l : list LogRecord) : list float :=
  flat_map
    (fun r => match performance_ns_day r with Some v => [v] | None => [] end) l.

(** The line printed for the mean of the values [vs]. *)
Definition average_line (vs : list float) : string :=
  String newline ("Average: " ++ format_f 3 (average vs) ++ " ns/day").

(** The average line of a queue as the reporter prints it: over the values
    that are neither None nor zero, and no line when there is none. *)
Definition average_of (subset : list LogRecord) : list string :=
  match filter float_truthy (non_null_perfs subset) with
  | [] => []
  | vs => [average_line vs]
  end.

(** ** A machine to run the entry point on *)


(** ** Signs of the numbers *)

(** A float that is zero, positive or plus infinity: neither negative nor
    a NaN. *)
Definition float_nonneg (x : float) : bool :=
  match x with
  | S754_zero false | S754_finite false _ _ | S754_infinity false => true
  | _ => false
  end.

(** The optional field holds no value or one that satisfies [p]. *)
Definition field_ok {V : Type} (p : V -> bool) (x : option V) : bool :=
  match x with
  | Some v => p v
  | None => true
  end.

(** * Properties *)

(** ** Text *)

Lemma app_nil_r (s : string) : s ++ "" = s.
Proof. induction s as [|c s IH]; simpl; [reflexivity | now rewrite IH]. Qed.

Lemma app_assoc (a b c : string) : (a ++ b) ++ c = a ++ b ++ c.
Proof. induction a as [|x a IH]; simpl; [reflexivity | now rewrite IH]. Qed.

Lemma length_app (a b : string) : length (a ++ b) = length a + length b.
Proof. induction a as [|x a IH]; simpl; [reflexivity | now rewrite IH]. Qed.

Lemma app_inv_head (a b c : string) : a ++ b = a ++ c -> b = c.
Proof.
  induction a as [|x a IH]; simpl; intros H; [exact H|].
  injection H as H. now apply IH.
Qed.

Lemma length_zero (s : string) : length s = 0 -> s = "".
Proof. destruct s; simpl; [reflexivity | discriminate]. Qed.

(** Two ways to cut one text: the shorter first part is a prefix of the
    longer one. *)
Lemma app_eq_app (a b c d : string) :
  a ++ b = c ++ d -> length a <= length c ->
  exists e, c = a ++ e /\ b = e ++ d.
Proof.
  revert c. induction a as [|x a IH]; intros c H L; simpl in *.
  - exists c. now split.
  - destruct c as [|y c]; simpl in *; [lia|].
    injection H as -> H. destruct (IH c H) as [e [-> ->]]; [lia|].
    exists e. now split.
Qed.

Lemma app_inv_length (a b c d : string) :
  a ++ b = c ++ d -> length a = length c -> a = c /\ b = d.
Proof.
  intros H L. destruct (app_eq_app a b c d H) as [e [-> ->]]; [lia|].
  rewrite length_app in L. assert (e = "") as -> by (apply length_zero; lia).
  now rewrite app_nil_r.
Qed.

Lemma take_app (m rest : string) :
  take (length (m ++ rest) - length rest) (m ++ rest) = m.
Proof.
  rewrite length_app. replace (length m + length rest - length rest) with (length m) by lia.
  induction m as [|c m IH]; simpl.
  - now destruct rest.
  - now rewrite IH.
Qed.

Lemma allb_app (p : ascii -> bool) (a b : string) :
  allb p (a ++ b) = allb p a && allb p b.
Proof.
  induction a as [|c a IH]; simpl; [reflexivity|].
  now rewrite IH, andb_assoc.
Qed.

Lemma run_of_spec (p : ascii -> bool) (s : string) :
  run_of p s = true <-> allb p s = true /\ s <> "".
Proof.
  unfold run_of. rewrite andb_true_iff, negb_true_iff, String.eqb_neq. tauto.
Qed.

Lemma run_of_cons (p : ascii -> bool) (s : string) :
  run_of p s = true -> exists c s', s = String c s' /\ p c = true /\ allb p s' = true.
Proof.
  intros H. apply run_of_spec in H as [H N]. destruct s as [|c s']; [congruence|].
  simpl in H. apply andb_true_iff in H as [H1 H2]. now exists c, s'.
Qed.

Lemma strip_app (l s : string) : strip l (l ++ s) = Some s.
Proof.
  induction l as [|c l IH]; simpl; [reflexivity|].
  now rewrite Ascii.eqb_refl.
Qed.

Lemma strip_inv (l s s' : string) : strip l s = Some s' -> s = l ++ s'.
Proof.
  revert s. induction l as [|c l IH]; simpl; intros s H.
  - congruence.
  - destruct s as [|d s]; [discriminate|].
    destruct (Ascii.eqb_spec c d) as [->|]; [|discriminate].
    now rewrite (IH _ H).
Qed.

Lemma contains_spec (needle hay : string) :
  contains needle hay = true <-> exists pre post, hay = pre ++ needle ++ post.
Proof.
  split.
  - induction hay as [|c hay IH]; simpl; intros H.
    + apply orb_true_iff in H as [H|H]; [|discriminate].
      destruct needle; [|discriminate]. now exists "", "".
    + apply orb_true_iff in H as [H|H].
      * change (prefix needle (String c hay) = true) in H.
        apply prefix_correct in H. exists "".
        exists (substring (length needle) (length (String c hay) - length needle) (String c hay)).
        simpl append at 1.
        assert (G : forall a b, substring 0 (length a) b = a -> b = a ++ substring (length a) (length b - length a) b).
        { clear. induction a as [|x a IH]; intros b E.
          - simpl. rewrite Nat.sub_0_r. clear. induction b as [|y b IH]; simpl; [reflexivity|now rewrite <- IH].
          - destruct b as [|y b]; simpl in E; [discriminate|].
            injection E as -> E. simpl. now rewrite <- IH. }
        now apply G.
      * destruct (IH H) as [pre [post ->]]. now exists (String c pre), post.
  - intros [pre [post ->]]. induction pre as [|c pre IH]; simpl.
    + assert (P : prefix needle (needle ++ post) = true).
      { clear. induction needle as [|c n IH]; simpl; [now destruct post|].
        destruct (ascii_dec c c); [exact IH|congruence]. }
      destruct (needle ++ post); simpl in *; now rewrite P.
    + rewrite IH. apply orb_true_r.
Qed.

(** ** The matcher against the meaning of the patterns *)

Section Rep.
Context {A : Type} (p : ascii -> bool) (k : string -> option A).

(** What [rep] returns comes from a cut of the text after a run of the
    class. *)
Lemma rep_sound (s : string) (a : A) :
  rep p k s = Some a ->
  exists m rest, s = m ++ rest /\ allb p m = true /\ k rest = Some a.
Proof.
  induction s as [|c s IH]; simpl; intros H.
  - now exists "", "".
  - destruct (p c) eqn:Pc.
    + destruct (rep p k s) as [a'|] eqn:R.
      * injection H as ->. destruct (IH eq_refl) as [m [rest [-> [Hm Hk]]]].
        exists (String c m), rest. simpl. now rewrite Pc, Hm.
      * now exists "", (String c s).
    + now exists "", (String c s).
Qed.

(** Every cut after a run of the class is tried. *)
Lemma rep_complete (m rest : string) (a : A) :
  allb p m = true -> k rest = Some a ->
  exists a', rep p k (m ++ rest) = Some a'.
Proof.
  induction m as [|c m IH]; simpl; intros Hm Hk.
  - destruct rest as [|c r]; simpl; [now exists a|].
    destruct (p c); [destruct (rep p k r) as [a'|]; [now exists a'|]|]; now exists a.
  - apply andb_true_iff in Hm as [Pc Hm]. rewrite Pc.
    destruct (IH Hm Hk) as [a' ->]. now exists a'.
Qed.

(** Greedy: the longest run after which the rest of the pattern matches
    is the one taken. *)
Lemma rep_greedy (m rest : string) (a : A) :
  allb p m = true -> k rest = Some a ->
  (forall m' rest', m ++ rest = m' ++ rest' -> allb p m' = true ->
                    length m < length m' -> k rest' = None) ->
  rep p k (m ++ rest) = Some a.
Proof.
  induction m as [|c m IH]; simpl; intros Hm Hk Hmax.
  - destruct rest as [|c r]; simpl; [exact Hk|].
    destruct (p c) eqn:Pc; [|exact Hk].
    destruct (rep p k r) as [a'|] eqn:R; [|exact Hk].
    destruct (rep_sound _ _ R) as [m' [rest' [-> [Hm' Hk']]]].
    rewrite (Hmax (String c m') rest') in Hk'; [discriminate|reflexivity| |simpl; lia].
    simpl. now rewrite Pc.
  - apply andb_true_iff in Hm as [Pc Hm]. rewrite Pc.
    rewrite IH; [reflexivity|assumption..|].
    intros m' rest' E Hm' L. apply (Hmax (String c m') rest').
    + simpl. now rewrite E.
    + simpl. now rewrite Pc.
    + simpl. lia.
Qed.

(** In particular the whole run, when the rest of the pattern matches
    after it. *)
Lemma rep_longest (m rest : string) (a : A) :
  allb p m = true -> starts p rest = false -> k rest = Some a ->
  rep p k (m ++ rest) = Some a.
Proof.
  intros Hm Hs Hk. apply rep_greedy; [assumption..|].
  intros m' rest' E Hm' L.
  destruct (app_eq_app m rest m' rest' E) as [e [-> ->]]; [lia|].
  rewrite length_app in L. destruct e as [|c e]; [simpl in L; lia|].
  rewrite allb_app in Hm'. simpl in *.
  rewrite Hs in Hm'. now rewrite andb_false_r in Hm'.
Qed.
End Rep.

Lemma rmatch_sound (r : regex) :
  forall (A : Type) (caps : list string) (s : string)
         (k : list string -> string -> option A) (a : A),
    rmatch r caps s k = Some a ->
    exists m rest c,
      s = m ++ rest /\ matches r m c /\ k (caps ++ c)%list rest = Some a.
Proof.
  induction r as [l|p|p|r IH|r1 IH1 r2 IH2]; intros A caps s k a H; simpl in H.
  - destruct (strip l s) as [s'|] eqn:S; [|discriminate].
    exists l, s', []. rewrite List.app_nil_r.
    split; [now apply strip_inv|]. split; [constructor|exact H].
  - destruct (rep_sound _ _ _ _ H) as [m [rest [-> [Hm Hk]]]].
    exists m, rest, []. rewrite List.app_nil_r. repeat split; [now constructor|exact Hk].
  - destruct s as [|c s]; [discriminate|]. destruct (p c) eqn:Pc; [|discriminate].
    destruct (rep_sound _ _ _ _ H) as [m [rest [-> [Hm Hk]]]].
    exists (String c m), rest, []. rewrite List.app_nil_r.
    repeat split; [|exact Hk]. constructor; [simpl; now rewrite Pc|discriminate].
  - destruct (IH _ _ _ _ _ H) as [m [rest [c [-> [Hm Hk]]]]].
    rewrite take_app in Hk. exists m, rest, (c ++ [m])%list.
    rewrite List.app_assoc. repeat split; [now constructor|exact Hk].
  - destruct (IH1 _ _ _ _ _ H) as [m1 [rest1 [c1 [-> [Hm1 Hk1]]]]].
    destruct (IH2 _ _ _ _ _ Hk1) as [m2 [rest [c2 [-> [Hm2 Hk]]]]].
    exists (m1 ++ m2), rest, (c1 ++ c2)%list.
    rewrite app_assoc, List.app_assoc. repeat split; [now constructor|exact Hk].
Qed.

Lemma rmatch_complete (r : regex) (m : string) (c : list string) :
  matches r m c ->
  forall (A : Type) (caps : list string) (rest : string)
         (k : list string -> string -> option A) (a : A),
    k (caps ++ c)%list rest = Some a ->
    exists a', rmatch r caps (m ++ rest) k = Some a'.
Proof.
  induction 1 as [l|p m Hm|p m Hm Hne|r m c Hr IH|r1 r2 m1 m2 c1 c2 H1 IH1 H2 IH2];
    intros A caps rest k a Hk; simpl.
  - rewrite strip_app. rewrite List.app_nil_r in Hk. now exists a.
  - rewrite List.app_nil_r in Hk. now apply rep_complete with (a := a).
  - rewrite List.app_nil_r in Hk. destruct m as [|x m]; [congruence|].
    simpl in *. apply andb_true_iff in Hm as [Px Hm]. rewrite Px.
    now apply rep_complete with (a := a).
  - apply IH with (a := a). rewrite take_app. now rewrite <- List.app_assoc.
  - rewrite app_assoc.
    destruct (IH2 A (caps ++ c1)%list rest k a) as [a2 E2];
      [now rewrite <- List.app_assoc|].
    now apply IH1 with (a := a2).
Qed.

Lemma match_at_sound (r : regex) (s : string) (caps : list string) :
  match_at r s = Some caps -> exists m rest, s = m ++ rest /\ matches r m caps.
Proof.
  unfold match_at. intros H.
  destruct (rmatch_sound _ _ _ _ _ _ H) as [m [rest [c [-> [Hm Hk]]]]].
  simpl in Hk. injection Hk as <-. now exists m, rest.
Qed.

Lemma match_at_complete (r : regex) (m rest : string) (caps : list string) :
  matches r m caps -> exists caps', match_at r (m ++ rest) = Some caps'.
Proof.
  intros H. unfold match_at.
  now apply rmatch_complete with (c := caps) (a := caps).
Qed.

Lemma search_sound (r : regex) (s : string) (caps : list string) :
  search r s = Some caps ->
  exists pre m post, s = pre ++ m ++ post /\ matches r m caps.
Proof.
  induction s as [|x s IH]; simpl; intros H.
  - destruct (match_at r "") as [c|] eqn:M; [|discriminate]. injection H as ->.
    destruct (match_at_sound _ _ _ M) as [m [rest [E Hm]]]. now exists "", m, rest.
  - destruct (match_at r (String x s)) as [c|] eqn:M.
    + injection H as ->.
      destruct (match_at_sound _ _ _ M) as [m [rest [E Hm]]]. now exists "", m, rest.
    + destruct (IH H) as [pre [m [post [-> Hm]]]]. now exists (String x pre), m, post.
Qed.

Lemma search_complete (r : regex) (s pre : string) :
  occurs_at r s pre -> exists caps, search r s = Some caps.
Proof.
  intros [m [post [caps [-> Hm]]]].
  induction pre as [|x pre IH]; simpl.
  - destruct (match_at_complete r m post caps Hm) as [c' E].
    simpl in E. destruct (m ++ post); simpl; rewrite E; now exists c'.
  - destruct (match_at r (String x (pre ++ m ++ post))) as [c'|]; [now exists c'|].
    exact IH.
Qed.

(** The search finds nothing exactly when the pattern has no match. *)
Lemma search_None (r : regex) (s : string) :
  search r s = None <-> absent r s.
Proof.
  split.
  - intros H pre O. destruct (search_complete _ _ _ O) as [c E]. congruence.
  - intros H. destruct (search r s) as [c|] eqn:E; [|reflexivity].
    destruct (search_sound _ _ _ E) as [pre [m [post [-> Hm]]]].
    exfalso. apply (H pre). now exists m, post, c.
Qed.

(** The search returns the match at the leftmost place that has one. *)
Lemma search_leftmost (r : regex) (pre t : string) (caps : list string) :
  leftmost r (pre ++ t) pre ->
  match_at r t = Some caps ->
  search r (pre ++ t) = Some caps.
Proof.
  induction pre as [|x pre IH]; simpl; intros L M.
  - destruct t; simpl; now rewrite M.
  - destruct (match_at r (String x (pre ++ t))) as [c|] eqn:E.
    + destruct (match_at_sound _ _ _ E) as [m [rest [E' Hm]]].
      assert (O : occurs_at r (String x (pre ++ t)) "") by now exists m, rest, c.
      apply L in O. simpl in O. lia.
    + apply IH; [|exact M].
      intros pre' [m [post [c [E' Hm]]]].
      assert (O : occurs_at r (String x (pre ++ t)) (String x pre')).
      { exists m, post, c. simpl. now rewrite E'. }
      apply L in O. simpl in O. lia.
Qed.

(** ** The match of each pattern on a text cut along it *)

Lemma rmatch_Cat {A : Type} (r1 r2 : regex) caps s (k : list string -> string -> option A) :
  rmatch (r1 ;;; r2) caps s k = rmatch r1 caps s (fun caps' s' => rmatch r2 caps' s' k).
Proof. reflexivity. Qed.

Lemma rmatch_Rep0 {A : Type} (p : ascii -> bool) caps s (k : list string -> string -> option A) :
  rmatch (Rep0 p) caps s k = rep p (k caps) s.
Proof. reflexivity. Qed.

Lemma rmatch_Lit {A : Type} (l : string) caps s (k : list string -> string -> option A) :
  rmatch (Lit l) caps (l ++ s) k = k caps s.
Proof. simpl. now rewrite strip_app. Qed.

Lemma rmatch_Rep0_run {A : Type} (p : ascii -> bool) caps m rest
    (k : list string -> string -> option A) (a : A) :
  allb p m = true -> starts p rest = false -> k caps rest = Some a ->
  rmatch (Rep0 p) caps (m ++ rest) k = Some a.
Proof. intros. simpl. now apply rep_longest. Qed.

Lemma rmatch_Rep1_run {A : Type} (p : ascii -> bool) caps m rest
    (k : list string -> string -> option A) (a : A) :
  run_of p m = true -> starts p rest = false -> k caps rest = Some a ->
  rmatch (Rep1 p) caps (m ++ rest) k = Some a.
Proof.
  intros Hm Hs Hk. destruct (run_of_cons _ _ Hm) as [c [m' [-> [Pc Hm']]]].
  simpl. rewrite Pc. now apply rep_longest.
Qed.

Lemma rmatch_Grp_run {A : Type} (p : ascii -> bool) caps m rest
    (k : list string -> string -> option A) (a : A) :
  run_of p m = true -> starts p rest = false ->
  k (caps ++ [m])%list rest = Some a ->
  rmatch (Grp (Rep1 p)) caps (m ++ rest) k = Some a.
Proof.
  intros Hm Hs Hk. change (rmatch (Grp (Rep1 p)) caps (m ++ rest) k) with
    (rmatch (Rep1 p) caps (m ++ rest)
       (fun caps' s' => k (caps' ++ [take (length (m ++ rest) - length s') (m ++ rest)])%list s')).
  apply rmatch_Rep1_run; [assumption..|]. now rewrite take_app.
Qed.

(** The classes of the patterns against each other. *)

Lemma digit_numchar (c : ascii) : is_digit c = true -> is_numchar c = true.
Proof. unfold is_numchar. now intros ->. Qed.

Lemma space_not_numchar (c : ascii) : is_space c = true -> is_numchar c = false.
Proof.
  destruct c as [[] [] [] [] [] [] [] []]; vm_compute; congruence.
Qed.

Lemma numchar_not_space (c : ascii) : is_numchar c = true -> is_space c = false.
Proof.
  intros H. destruct (is_space c) eqn:E; [|reflexivity].
  apply space_not_numchar in E. congruence.
Qed.

Lemma digit_not_space (c : ascii) : is_digit c = true -> is_space c = false.
Proof. intros H. now apply numchar_not_space, digit_numchar. Qed.

Lemma allb_impl (p q : ascii -> bool) (s : string) :
  (forall c, p c = true -> q c = true) -> allb p s = true -> allb q s = true.
Proof.
  intros I. induction s as [|c s IH]; simpl; [reflexivity|].
  intros H. apply andb_true_iff in H as [H1 H2]. now rewrite (I _ H1), IH.
Qed.

(** A run of one class does not start with a character of a disjoint one. *)
Lemma starts_run (p q : ascii -> bool) (m t : string) :
  (forall c, q c = true -> p c = false) ->
  run_of q m = true -> starts p (m ++ t) = false.
Proof.
  intros D Hm. destruct (run_of_cons _ _ Hm) as [c [m' [-> [Qc _]]]].
  simpl. now apply D.
Qed.

Create HintDb classes.

#[local] Hint Resolve space_not_numchar numchar_not_space digit_not_space : classes.

Ltac starts_tac :=
  solve [ assumption
        | reflexivity
        | eapply starts_run; [|eassumption]; auto with classes ].

(** One step of the matcher along a text that is cut as the pattern is. *)
Ltac rstep :=
  first
    [ rewrite rmatch_Cat
    | rewrite rmatch_Lit
    | apply rmatch_Grp_run; [assumption | starts_tac |]
    | apply rmatch_Rep1_run; [assumption | starts_tac |]
    | apply rmatch_Rep0_run; [assumption | starts_tac |] ];
  cbv beta.

Lemma match_numa_name (ds post : string) :
  run_of is_digit ds = true -> starts is_digit post = false ->
  match_at re_numa_name ("exclusive_numa" ++ ds ++ post) = Some [ds].
Proof. intros. unfold match_at, re_numa_name. repeat rstep. reflexivity. Qed.

Lemma match_task_name (ds post : string) :
  run_of is_digit ds = true -> starts is_digit post = false ->
  match_at re_task_name ("shared_task" ++ ds ++ post) = Some [ds].
Proof. intros. unfold match_at, re_task_name. repeat rstep. reflexivity. Qed.

Lemma match_cpubind (ws ds post : string) :
  allb is_space ws = true -> run_of is_digit ds = true ->
  starts is_digit post = false ->
  match_at re_cpubind ("cpubind:" ++ ws ++ ds ++ post) = Some [ds].
Proof. intros. unfold match_at, re_cpubind. repeat rstep. reflexivity. Qed.

Lemma match_gpu (ws ds post : string) :
  allb is_space ws = true -> run_of is_digit ds = true ->
  starts is_digit post = false ->
  match_at re_gpu ("CUDA_VISIBLE_DEVICES:" ++ ws ++ ds ++ post) = Some [ds].
Proof. intros. unfold match_at, re_gpu. repeat rstep. reflexivity. Qed.

Lemma match_perf (ws1 num ws2 post : string) :
  run_of is_space ws1 = true -> run_of is_numchar num = true ->
  run_of is_space ws2 = true ->
  match_at re_perf ("Performance:" ++ ws1 ++ num ++ ws2 ++ "ns/day" ++ post)
  = Some [num].
Proof. intros. unfold match_at, re_perf. repeat rstep. reflexivity. Qed.

Lemma match_perf_alt (num ws post : string) :
  run_of is_numchar num = true -> run_of is_space ws = true ->
  match_at re_perf_alt (num ++ ws ++ "ns/day" ++ post) = Some [num].
Proof. intros. unfold match_at, re_perf_alt. repeat rstep. reflexivity. Qed.

Lemma match_time (ws1 n1 ws2 n2 ws3 n3 post : string) :
  run_of is_space ws1 = true -> run_of is_numchar n1 = true ->
  run_of is_space ws2 = true -> run_of is_numchar n2 = true ->
  run_of is_space ws3 = true -> run_of is_numchar n3 = true ->
  starts is_numchar post = false ->
  match_at re_time ("Time:" ++ ws1 ++ n1 ++ ws2 ++ n2 ++ ws3 ++ n3 ++ post)
  = Some [n1; n2; n3].
Proof. intros. unfold match_at, re_time. repeat rstep. reflexivity. Qed.

(** Every text starts with a longest run of a class. *)
Lemma longest_run (p : ascii -> bool) (s : string) :
  exists m rest, s = m ++ rest /\ allb p m = true /\ starts p rest = false.
Proof.
  induction s as [|c s [m [rest [-> [Hm Hr]]]]].
  - now exists "", "".
  - destruct (p c) eqn:Pc.
    + exists (String c m), rest. simpl. now rewrite Pc.
    + exists "", (String c (m ++ rest)). now simpl.
Qed.

(** The third number of the timing line need not be cut at its end: the
    first two groups are the same. *)
Lemma match_time_12 (ws1 n1 ws2 n2 ws3 n3 post : string) :
  run_of is_space ws1 = true -> run_of is_numchar n1 = true ->
  run_of is_space ws2 = true -> run_of is_numchar n2 = true ->
  run_of is_space ws3 = true -> run_of is_numchar n3 = true ->
  exists n3',
    match_at re_time ("Time:" ++ ws1 ++ n1 ++ ws2 ++ n2 ++ ws3 ++ n3 ++ post)
    = Some [n1; n2; n3'].
Proof.
  intros H1 H2 H3 H4 H5 H6.
  destruct (longest_run is_numchar post) as [m [rest [-> [Hm Hr]]]].
  exists (n3 ++ m). rewrite <- (app_assoc n3 m rest).
  apply match_time; try assumption.
  apply run_of_spec in H6 as [H6 N]. apply run_of_spec. split.
  - now rewrite allb_app, H6, Hm.
  - destruct n3; [congruence|discriminate].
Qed.

Lemma match_wall (caps : list string) (ws1 num ws2 post : string) :
  run_of is_space ws1 = true -> run_of is_numchar num = true ->
  run_of is_space ws2 = true ->
  rmatch re_wall caps ("wall" ++ ws1 ++ num ++ ws2 ++ "s" ++ post)
    (fun caps' _ => Some caps') = Some (caps ++ [num])%list.
Proof. intros. unfold re_wall. repeat rstep. reflexivity. Qed.

Lemma match_finished (tail mid ws1 num ws2 post : string) :
  allb is_dot tail = true -> allb is_dot mid = true ->
  run_of is_space ws1 = true -> run_of is_numchar num = true ->
  run_of is_space ws2 = true ->
  last_on_line re_wall mid ("wall" ++ ws1 ++ num ++ ws2 ++ "s" ++ post) ->
  match_at re_finished
    ("Finished mdrun" ++ tail ++ nl ++ mid ++ "wall" ++ ws1 ++ num ++ ws2
       ++ "s" ++ post)
  = Some [num].
Proof.
  intros Ht Hmid H1 H2 H3 Hlast. unfold match_at, re_finished. repeat rstep.
  rewrite rmatch_Rep0. apply rep_greedy; [assumption| |].
  - now apply match_wall.
  - intros mid' t' E Hm' L.
    destruct (rmatch re_wall [] t' (fun caps' _ => Some caps')) as [c|] eqn:M;
      [|reflexivity].
    exfalso. apply (Hlast mid' t' E Hm' L).
    destruct (match_at_sound re_wall t' c M) as [m [rest [-> Hmm]]].
    now exists m, rest, c.
Qed.

(** ** The record that [extract] returns, field by field *)

Lemma captured_Some (r : regex) (s : string) (m : list string) (i : nat) :
  search r s = Some m -> captured r s i = Some (group i m).
Proof. unfold captured. now intros ->. Qed.

Lemma captured_None (r : regex) (s : string) (i : nat) :
  search r s = None -> captured r s i = None.
Proof. unfold captured. now intros ->. Qed.

Ltac destruct_search r s :=
  let E := fresh "E" in
  destruct (search r s) eqn:E;
  [ rewrite ?(captured_Some _ _ _ _ E) | rewrite ?(captured_None _ _ _ E) ].

Ltac destruct_conv :=
  match goal with
  | |- context [py_int ?t] =>
      unfold py_int at 1;
      destruct (negb (run_of is_digit t)); [simpl; discriminate|];
      destruct (int_max_str_digits <? length t)%nat; [simpl; discriminate|]
  | |- context [py_float ?t] =>
      unfold py_float at 1;
      destruct (decimal_literal t); [|simpl; discriminate]
  end.

Theorem extract_fields (name content : string) (r : LogRecord) :
  extract name content = Ok r ->
  file r = name
  /\ type r = (if contains "exclusive" name then "exclusive" else "shared")
  /\ numa_node r = option_map int_val (numa_text name content)
  /\ task_id r = option_map int_val (task_text name)
  /\ gpu_id r = option_map int_val (captured re_gpu content 1)
  /\ performance_ns_day r = option_map float_val (perf_text content)
  /\ wall_time_s r = option_map float_val (wall_text content)
  /\ core_time_s r = option_map float_val (captured re_time content 1).
Proof.
  unfold extract, step_name, step_perf, step_time, assign,
    perf_text, wall_text, numa_text, task_text.
  destruct (contains "exclusive" name).
  - destruct_search re_numa_name name; simpl; [destruct_conv; simpl|];
    (destruct_search re_cpubind content; simpl; [destruct_conv; simpl|]);
    (destruct_search re_gpu content; simpl; [destruct_conv; simpl|]);
    (destruct_search re_perf content; simpl;
     [destruct_conv; simpl|
      destruct_search re_perf_alt content; simpl; [destruct_conv; simpl|]]);
    (destruct_search re_time content; simpl; [do 2 (destruct_conv; simpl)|]);
    (destruct_search re_finished content; simpl; [destruct_conv; simpl|]);
    intros [= <-]; simpl; repeat split; reflexivity.
  - destruct_search re_task_name name; simpl; [destruct_conv; simpl|];
    (destruct_search re_cpubind content; simpl; [destruct_conv; simpl|]);
    (destruct_search re_gpu content; simpl; [destruct_conv; simpl|]);
    (destruct_search re_perf content; simpl;
     [destruct_conv; simpl|
      destruct_search re_perf_alt content; simpl; [destruct_conv; simpl|]]);
    (destruct_search re_time content; simpl; [do 2 (destruct_conv; simpl)|]);
    (destruct_search re_finished content; simpl; [destruct_conv; simpl|]);
    intros [= <-]; simpl; repeat split; reflexivity.
Qed.

(** ** The texts in the language of each pattern *)

Ltac inv_matches :=
  repeat match goal with
         | H : matches (Cat _ _) _ _ |- _ => inversion H; subst; clear H
         | H : matches (Lit _) _ _ |- _ => inversion H; subst; clear H
         | H : matches (Grp _) _ _ |- _ => inversion H; subst; clear H
         | H : matches (Rep0 _) _ _ |- _ => inversion H; subst; clear H
         | H : matches (Rep1 _) _ _ |- _ => inversion H; subst; clear H
         end.

Lemma run_of_intro (p : ascii -> bool) (s : string) :
  allb p s = true -> s <> "" -> run_of p s = true.
Proof. intros. now apply run_of_spec. Qed.

#[local] Hint Resolve run_of_intro : classes.

Lemma matches_numa_name (m : string) (caps : list string) :
  matches re_numa_name m caps ->
  exists ds, m = "exclusive_numa" ++ ds /\ caps = [ds] /\ run_of is_digit ds = true.
Proof.
  unfold re_numa_name. intros H. inv_matches.
  eexists. repeat split; auto with classes.
Qed.

Lemma matches_task_name (m : string) (caps : list string) :
  matches re_task_name m caps ->
  exists ds, m = "shared_task" ++ ds /\ caps = [ds] /\ run_of is_digit ds = true.
Proof.
  unfold re_task_name. intros H. inv_matches.
  eexists. repeat split; auto with classes.
Qed.

Lemma matches_cpubind (m : string) (caps : list string) :
  matches re_cpubind m caps ->
  exists ws ds,
    m = "cpubind:" ++ ws ++ ds /\ caps = [ds]
    /\ allb is_space ws = true /\ run_of is_digit ds = true.
Proof.
  unfold re_cpubind. intros H. inv_matches.
  do 2 eexists. repeat split; auto with classes.
Qed.

Lemma matches_gpu (m : string) (caps : list string) :
  matches re_gpu m caps ->
  exists ws ds,
    m = "CUDA_VISIBLE_DEVICES:" ++ ws ++ ds /\ caps = [ds]
    /\ allb is_space ws = true /\ run_of is_digit ds = true.
Proof.
  unfold re_gpu. intros H. inv_matches.
  do 2 eexists. repeat split; auto with classes.
Qed.

Lemma matches_perf (m : string) (caps : list string) :
  matches re_perf m caps ->
  exists ws1 num ws2,
    m = "Performance:" ++ ws1 ++ num ++ ws2 ++ "ns/day" /\ caps = [num]
    /\ run_of is_space ws1 = true /\ run_of is_numchar num = true
    /\ run_of is_space ws2 = true.
Proof.
  unfold re_perf. intros H. inv_matches.
  do 3 eexists. repeat split; auto with classes.
Qed.

Lemma matches_perf_alt (m : string) (caps : list string) :
  matches re_perf_alt m caps ->
  exists num ws,
    m = num ++ ws ++ "ns/day" /\ caps = [num]
    /\ run_of is_numchar num = true /\ run_of is_space ws = true.
Proof.
  unfold re_perf_alt. intros H. inv_matches.
  do 2 eexists. repeat split; auto with classes.
Qed.

Lemma matches_time (m : string) (caps : list string) :
  matches re_time m caps ->
  exists ws1 n1 ws2 n2 ws3 n3,
    m = "Time:" ++ ws1 ++ n1 ++ ws2 ++ n2 ++ ws3 ++ n3 /\ caps = [n1; n2; n3]
    /\ run_of is_space ws1 = true /\ run_of is_numchar n1 = true
    /\ run_of is_space ws2 = true /\ run_of is_numchar n2 = true
    /\ run_of is_space ws3 = true /\ run_of is_numchar n3 = true.
Proof.
  unfold re_time. intros H. inv_matches.
  do 6 eexists. repeat split; auto with classes.
Qed.

Lemma matches_wall (m : string) (caps : list string) :
  matches re_wall m caps ->
  exists ws1 num ws2,
    m = "wall" ++ ws1 ++ num ++ ws2 ++ "s" /\ caps = [num]
    /\ run_of is_space ws1 = true /\ run_of is_numchar num = true
    /\ run_of is_space ws2 = true.
Proof.
  unfold re_wall. intros H. inv_matches.
  do 3 eexists. repeat split; auto with classes.
Qed.

Lemma matches_finished (m : string) (caps : list string) :
  matches re_finished m caps ->
  exists tail mid ws1 num ws2,
    m = "Finished mdrun" ++ tail ++ nl ++ mid ++ "wall" ++ ws1 ++ num ++ ws2 ++ "s"
    /\ caps = [num]
    /\ allb is_dot tail = true /\ allb is_dot mid = true
    /\ run_of is_space ws1 = true /\ run_of is_numchar num = true
    /\ run_of is_space ws2 = true.
Proof.
  unfold re_finished. intros H.
  inversion H as [| | | |? ? ? ? ? ? H1 H2]; subst; clear H.
  inversion H2 as [| | | |? ? ? ? ? ? H3 H4]; subst; clear H2.
  inversion H4 as [| | | |? ? ? ? ? ? H5 H6]; subst; clear H4.
  inversion H6 as [| | | |? ? ? ? ? ? H7 H8]; subst; clear H6.
  apply matches_wall in H8 as [ws1 [num [ws2 [-> [-> [? [? ?]]]]]]].
  inv_matches. do 5 eexists. repeat split; eauto.
Qed.

(** ** When [extract] returns *)

(** A [\d+] group holds a non-empty run of digits. *)
Lemma search_digits (r : regex) (s : string) (m : list string) :
  In r [re_numa_name; re_task_name; re_cpubind; re_gpu] ->
  search r s = Some m -> run_of is_digit (group 1 m) = true.
Proof.
  intros I E. destruct (search_sound _ _ _ E) as [pre [t [post [_ M]]]].
  simpl in I. destruct I as [<-|[<-|[<-|[<-|[]]]]].
  - apply matches_numa_name in M as [ds [_ [-> R]]]. exact R.
  - apply matches_task_name in M as [ds [_ [-> R]]]. exact R.
  - apply matches_cpubind in M as [ws [ds [_ [-> [_ R]]]]]. exact R.
  - apply matches_gpu in M as [ws [ds [_ [-> [_ R]]]]]. exact R.
Qed.

Ltac search_int r s :=
  let E := fresh "E" in
  destruct (search r s) eqn:E;
  [ rewrite ?(captured_Some _ _ _ _ E); simpl;
    unfold py_int at 1;
    rewrite (search_digits r s _ ltac:(simpl; tauto) E); simpl;
    match goal with
    | |- context [(int_max_str_digits <? ?n)%nat] =>
        destruct (int_max_str_digits <? n)%nat; simpl
    end
  | rewrite ?(captured_None _ _ _ E); simpl ].

Ltac search_float r s :=
  let E := fresh "E" in
  destruct (search r s) eqn:E;
  [ rewrite ?(captured_Some _ _ _ _ E); simpl;
    repeat (unfold py_float at 1;
            match goal with
            | |- context [if decimal_literal ?t then _ else _] =>
                destruct (decimal_literal t); simpl
            end)
  | rewrite ?(captured_None _ _ _ E); simpl ].

Ltac conclude :=
  rewrite ?andb_false_r; simpl;
  first
    [ split; [reflexivity | intros _; eexists; reflexivity]
    | split; [intros [? [=]] | discriminate] ].

Theorem extract_returns_iff (name content : string) :
  (exists r, extract name content = Ok r) <-> all_convert name content = true.
Proof.
  unfold all_convert, name_text, perf_text, extract, step_name, step_perf,
    step_time, assign.
  destruct (contains "exclusive" name).
  - search_int re_numa_name name; try conclude;
    (search_int re_cpubind content; try conclude);
    (search_int re_gpu content; try conclude);
    (search_float re_perf content; try conclude;
     try (search_float re_perf_alt content; try conclude));
    (search_float re_time content; try conclude);
    (search_float re_finished content; conclude).
  - search_int re_task_name name; try conclude;
    (search_int re_cpubind content; try conclude);
    (search_int re_gpu content; try conclude);
    (search_float re_perf content; try conclude;
     try (search_float re_perf_alt content; try conclude));
    (search_float re_time content; try conclude);
    (search_float re_finished content; conclude).
Qed.

Lemma extract_raises_ValueError (name content : string) (e : exn) :
  extract name content = Raise e -> exists msg, e = ValueError msg.
Proof.
  assert (I : forall t v, py_int t = Raise v -> exists msg, v = ValueError msg).
  { intros t v. unfold py_int.
    destruct (negb (run_of is_digit t)); [intros [= <-]; eauto|].
    destruct (int_max_str_digits <? length t)%nat; [intros [= <-]; eauto|discriminate]. }
  assert (F : forall t v, py_float t = Raise v -> exists msg, v = ValueError msg).
  { intros t v. unfold py_float.
    destruct (decimal_literal t); [discriminate|intros [= <-]; eauto]. }
  unfold extract, step_name, step_perf, step_time, assign.
  repeat match goal with
         | |- context [match search ?r ?s with _ => _ end] =>
             destruct (search r s); simpl
         | |- context [if contains ?a ?b then _ else _] =>
             destruct (contains a b); simpl
         | |- context [bind (py_int ?t) _] =>
             let E := fresh "E" in
             destruct (py_int t) eqn:E; simpl;
             [|intros [= <-]; exact (I _ _ E)]
         | |- context [bind (py_float ?t) _] =>
             let E := fresh "E" in
             destruct (py_float t) eqn:E; simpl;
             [|intros [= <-]; exact (F _ _ E)]
         end; discriminate.
Qed.

(** ** The extractor *)

Lemma absent_captured (r : regex) (s : string) (i : nat) :
  absent r s -> captured r s i = None.
Proof. intros H. apply captured_None. now apply search_None. Qed.

Lemma leftmost_captured (r : regex) (pre t : string) (caps : list string) (i : nat) :
  leftmost r (pre ++ t) pre -> match_at r t = Some caps ->
  captured r (pre ++ t) i = Some (group i caps).
Proof. intros L M. apply captured_Some. now apply search_leftmost. Qed.

(** C4. The name of the file decides the category and which number is read
    from it. If the name contains "exclusive", the record has the category
    exclusive and, when the name matches [exclusive_numa<digits>], the NUMA
    node is the value of those digits unless the content overrides it;
    otherwise the category is shared and, when the name matches
    [shared_task<digits>], the task id is the value of those digits. The
    digits are those of the match [re.search] returns: the whole run of
    digits after the first place where the pattern matches. *)
Theorem name_decides_category (name content : string) (r : LogRecord) :
  extract name content = Ok r ->
  (contains "exclusive" name = true ->
   type r = "exclusive" /\
   forall pre ds post,
     name = pre ++ "exclusive_numa" ++ ds ++ post ->
     run_of is_digit ds = true -> starts is_digit post = false ->
     leftmost re_numa_name name pre ->
     absent re_cpubind content ->
     numa_node r = Some (int_val ds))
  /\
  (contains "exclusive" name = false ->
   type r = "shared" /\
   forall pre ds post,
     name = pre ++ "shared_task" ++ ds ++ post ->
     run_of is_digit ds = true -> starts is_digit post = false ->
     leftmost re_task_name name pre ->
     task_id r = Some (int_val ds)).
Proof.
  intros H. destruct (extract_fields _ _ _ H) as (_ & Ht & Hn & Hk & _).
  split; intros C; rewrite C in *.
  - split; [exact Ht|]. intros pre ds post E Hd Hp L A.
    rewrite Hn. unfold numa_text. rewrite (absent_captured _ _ _ A), C.
    subst name. rewrite (leftmost_captured _ _ _ [ds] 1 L); [reflexivity|].
    now apply match_numa_name.
  - split; [exact Ht|]. intros pre ds post E Hd Hp L.
    rewrite Hk. unfold task_text. rewrite C.
    subst name. rewrite (leftmost_captured _ _ _ [ds] 1 L); [reflexivity|].
    now apply match_task_name.
Qed.

Lemma leftmost_nil (r : regex) (s : string) : leftmost r s "".
Proof. intros pre' _. simpl. lia. Qed.

Lemma absent_by_search (r : regex) (s : string) :
  search r s = None -> absent r s.
Proof. apply search_None. Qed.

(** [exclusive_numa3.log] gives the category exclusive and NUMA node 3,
    [shared_task12.log] the category shared and task 12. *)
Lemma name_decides_category_witness :
  (exists r, extract "exclusive_numa3.log" "" = Ok r
             /\ type r = "exclusive" /\ numa_node r = Some 3%Z)
  /\ (exists r, extract "shared_task12.log" "" = Ok r
                /\ type r = "shared" /\ task_id r = Some 12%Z).
Proof.
  split.
  - eexists. split; [reflexivity|].
    destruct (name_decides_category "exclusive_numa3.log" "" _ eq_refl) as [E _].
    destruct (E eq_refl) as [T N]. split; [exact T|].
    apply (N "" "3" ".log"); try reflexivity.
    + apply leftmost_nil.
    + apply absent_by_search. reflexivity.
  - eexists. split; [reflexivity|].
    destruct (name_decides_category "shared_task12.log" "" _ eq_refl) as [_ S].
    destruct (S eq_refl) as [T N]. split; [exact T|].
    apply (N "" "12" ".log"); try reflexivity.
    apply leftmost_nil.
Defined.

Lemma occurs_search (r : regex) (pre t : string) (caps : list string) :
  match_at r t = Some caps -> exists caps', search r (pre ++ t) = Some caps'.
Proof.
  intros M. destruct (match_at_sound _ _ _ M) as [m [rest [-> Hm]]].
  apply search_complete with (pre := pre). now exists m, rest, caps.
Qed.

Lemma timing_line_search (content : string) :
  timing_line content <-> exists caps, search re_time content = Some caps.
Proof.
  split.
  - intros (pre & ws1 & n1 & ws2 & n2 & ws3 & n3 & post & -> & H).
    destruct H as (H1 & H2 & H3 & H4 & H5 & H6).
    destruct (match_time_12 ws1 n1 ws2 n2 ws3 n3 post H1 H2 H3 H4 H5 H6) as [n3' M].
    now apply occurs_search with (caps := [n1; n2; n3']).
  - intros [caps E]. destruct (search_sound _ _ _ E) as (pre & m & post & -> & M).
    apply matches_time in M as (ws1 & n1 & ws2 & n2 & ws3 & n3 & -> & _ & H).
    exists pre, ws1, n1, ws2, n2, ws3, n3, post. split; [|exact H].
    now rewrite !app_assoc.
Qed.

Lemma finished_pair_search (content : string) :
  finished_pair content <-> exists caps, search re_finished content = Some caps.
Proof.
  split.
  - intros (pre & tail & mid & ws1 & num & ws2 & post & -> & Ht & Hm & H1 & H2 & H3).
    apply search_complete with (pre := pre).
    exists ("Finished mdrun" ++ tail ++ nl ++ mid ++ "wall" ++ ws1 ++ num ++ ws2 ++ "s"),
      post, [num].
    split; [now rewrite !app_assoc|].
    apply run_of_spec in H1 as [? ?], H2 as [? ?], H3 as [? ?].
    unfold re_finished, re_wall.
    apply (M_Cat _ _ _ _ [] [num]); [constructor|].
    apply (M_Cat _ _ _ _ [] [num]); [now constructor|].
    apply (M_Cat _ _ _ _ [] [num]); [constructor|].
    apply (M_Cat _ _ _ _ [] [num]); [now constructor|].
    apply (M_Cat _ _ _ _ [] [num]); [constructor|].
    apply (M_Cat _ _ _ _ [] [num]); [now constructor|].
    apply (M_Cat _ _ _ _ [num] []); [apply (M_Grp _ _ []); now constructor|].
    apply (M_Cat _ _ _ _ [] []); [now constructor|constructor].
  - intros [caps E]. destruct (search_sound _ _ _ E) as (pre & m & post & -> & M).
    apply matches_finished in M as (tail & mid & ws1 & num & ws2 & -> & _ & H).
    exists pre, tail, mid, ws1, num, ws2, post. split; [|exact H].
    now rewrite !app_assoc.
Qed.

(** C10. The timing line is taken whole or not at all: when [Time:] is
    nowhere followed by three numbers set off by white space, the core time
    is left unset, and so is the wall time unless the "Finished mdrun" pair
    gives it; the core time is set only when the full three-number pattern
    matches, and then the wall time is set too. *)
Theorem timing_all_or_nothing (name content : string) (r : LogRecord) :
  extract name content = Ok r ->
  (~ timing_line content ->
   core_time_s r = None
   /\ (~ finished_pair content -> wall_time_s r = None))
  /\ (core_time_s r <> None ->
      timing_line content /\ wall_time_s r <> None).
Proof.
  intros H. destruct (extract_fields _ _ _ H) as (_ & _ & _ & _ & _ & _ & Hw & Hc).
  rewrite Hw, Hc. unfold wall_text, captured.
  destruct (search re_time content) as [tc|] eqn:T; simpl.
  - split.
    + intros N. exfalso. apply N, timing_line_search. now exists tc.
    + intros _. split; [apply timing_line_search; now exists tc|].
      now destruct (search re_finished content).
  - split; [|congruence].
    intros _. split; [reflexivity|].
    intros N. destruct (search re_finished content) as [fc|] eqn:F; [|reflexivity].
    exfalso. apply N, finished_pair_search. now exists fc.
Qed.

Lemma no_timing_line (content : string) :
  search re_time content = None -> ~ timing_line content.
Proof. intros E T. apply timing_line_search in T as [c T]. congruence. Qed.

Lemma no_finished_pair (content : string) :
  search re_finished content = None -> ~ finished_pair content.
Proof. intros E T. apply finished_pair_search in T as [c T]. congruence. Qed.

(** A timing line with two numbers only sets neither field. *)
Lemma timing_all_or_nothing_witness :
  exists r, extract "shared_task1.log" "Time:  10.0  20.0 done" = Ok r
            /\ core_time_s r = None /\ wall_time_s r = None.
Proof.
  eexists. split; [reflexivity|].
  destruct (timing_all_or_nothing "shared_task1.log" "Time:  10.0  20.0 done" _ eq_refl)
    as [N _].
  destruct (N (no_timing_line "Time:  10.0  20.0 done" eq_refl)) as [C W].
  split; [exact C|].
  exact (W (no_finished_pair "Time:  10.0  20.0 done" eq_refl)).
Defined.

(** C9. A shared file whose name matches [shared_task<digits>] and whose
    content has a [cpubind: <digits>] report gets both its task id, from
    the name, and its NUMA node, from the content: the binding report is
    read for every file, of either category. *)
Theorem shared_record_has_task_and_numa (name content : string) (r : LogRecord)
    (pre ds post cpre ws cds cpost : string) :
  extract name content = Ok r ->
  contains "exclusive" name = false ->
  name = pre ++ "shared_task" ++ ds ++ post ->
  run_of is_digit ds = true ->
  content = cpre ++ "cpubind:" ++ ws ++ cds ++ cpost ->
  allb is_space ws = true -> run_of is_digit cds = true ->
  exists t n,
    task_id r = Some (int_val t) /\ numa_node r = Some (int_val n)
    /\ (exists a b, name = a ++ "shared_task" ++ t ++ b /\ run_of is_digit t = true)
    /\ (exists a w b, content = a ++ "cpubind:" ++ w ++ n ++ b
                      /\ allb is_space w = true /\ run_of is_digit n = true).
Proof.
  intros H C En Hd Ec Hw Hcd.
  destruct (extract_fields _ _ _ H) as (_ & _ & Hn & Hk & _).
  rewrite Hn, Hk. unfold numa_text, task_text, captured. rewrite C.
  destruct (longest_run is_digit post) as [d' [post' [-> [Hd' Hp']]]].
  destruct (longest_run is_digit cpost) as [c' [cpost' [-> [Hc' Hcp']]]].
  assert (R1 : run_of is_digit (ds ++ d') = true).
  { apply run_of_spec in Hd as [? ?]. apply run_of_spec. rewrite allb_app.
    split; [now rewrite H0, Hd'|]. destruct ds; [congruence|discriminate]. }
  assert (R2 : run_of is_digit (cds ++ c') = true).
  { apply run_of_spec in Hcd as [? ?]. apply run_of_spec. rewrite allb_app.
    split; [now rewrite H0, Hc'|]. destruct cds; [congruence|discriminate]. }
  destruct (occurs_search re_task_name pre ("shared_task" ++ (ds ++ d') ++ post') [ds ++ d'])
    as [tc T]; [now apply match_task_name|].
  destruct (occurs_search re_cpubind cpre ("cpubind:" ++ ws ++ (cds ++ c') ++ cpost') [cds ++ c'])
    as [nc N]; [now apply match_cpubind|].
  rewrite (app_assoc ds d' post'), <- En in T.
  rewrite (app_assoc cds c' cpost'), <- Ec in N.
  rewrite T, N. simpl.
  destruct (search_sound _ _ _ T) as (a & m & b & E1 & M1).
  apply matches_task_name in M1 as (t & -> & -> & Rt).
  destruct (search_sound _ _ _ N) as (a' & m' & b' & E2 & M2).
  apply matches_cpubind in M2 as (w & n & -> & -> & Ww & Rn).
  exists t, n. repeat split.
  - exists a, b. split; [now rewrite E1, !app_assoc|exact Rt].
  - exists a', w, b'. split; [now rewrite E2, !app_assoc|]. now split.
Qed.

Lemma shared_record_has_task_and_numa_witness :
  exists r t n,
    extract "shared_task12.log" "cpubind: 1" = Ok r
    /\ task_id r = Some t /\ numa_node r = Some n.
Proof.
  destruct (shared_record_has_task_and_numa "shared_task12.log" "cpubind: 1"
              _ "" "12" ".log" "" " " "1" "" eq_refl eq_refl eq_refl eq_refl
              eq_refl eq_refl eq_refl) as (t & n & T & N & _).
  eexists. exists (int_val t), (int_val n). split; [reflexivity|]. now split.
Defined.

(** C1, as amended. The performance is the number of the first place in
    the content where the primary pattern matches ([Performance:], white
    space, a run of digits and full stops, white space, [ns/day]); when the
    primary pattern matches nowhere, it is the number of the first place
    where the looser pattern matches (a run of digits and full stops, white
    space, [ns/day]). In both cases a record is returned only when that run
    is a decimal literal, and the field holds its value. *)
Theorem performance_of_first_match (name content : string) (r : LogRecord) :
  extract name content = Ok r ->
  (forall pre ws1 num ws2 post,
     content = pre ++ "Performance:" ++ ws1 ++ num ++ ws2 ++ "ns/day" ++ post ->
     run_of is_space ws1 = true -> run_of is_numchar num = true ->
     run_of is_space ws2 = true ->
     leftmost re_perf content pre ->
     decimal_literal num = true
     /\ performance_ns_day r = Some (float_val num))
  /\
  (absent re_perf content ->
   forall pre num ws post,
     content = pre ++ num ++ ws ++ "ns/day" ++ post ->
     run_of is_numchar num = true -> run_of is_space ws = true ->
     leftmost re_perf_alt content pre ->
     decimal_literal num = true
     /\ performance_ns_day r = Some (float_val num)).
Proof.
  intros H.
  assert (C : all_convert name content = true)
    by (apply extract_returns_iff; now exists r).
  destruct (extract_fields _ _ _ H) as (_ & _ & _ & _ & _ & Hp & _).
  unfold all_convert in C. rewrite !andb_true_iff in C.
  destruct C as [[[[_ C] _] _] _].
  split.
  - intros pre ws1 num ws2 post E H1 H2 H3 L. subst content.
    assert (P : perf_text (pre ++ "Performance:" ++ ws1 ++ num ++ ws2 ++ "ns/day" ++ post)
                = Some num).
    { unfold perf_text.
      now rewrite (leftmost_captured _ _ _ [num] 1 L (match_perf _ _ _ _ H1 H2 H3)). }
    rewrite P in *. split; [exact C|exact Hp].
  - intros A pre num ws post E H1 H2 L. subst content.
    assert (P : perf_text (pre ++ num ++ ws ++ "ns/day" ++ post) = Some num).
    { unfold perf_text. rewrite (absent_captured _ _ _ A).
      now rewrite (leftmost_captured _ _ _ [num] 1 L (match_perf_alt _ _ _ H1 H2)). }
    rewrite P in *. split; [exact C|exact Hp].
Qed.

(** A performance line alone gives its number, 12.345; a content with
    [7.5 ns/day] alone gives 7.5 by the looser pattern. *)
Lemma performance_of_first_match_witness :
  (exists r, extract "exclusive_numa0.log" "Performance:    12.345    ns/day" = Ok r
             /\ performance_ns_day r = Some (float_val "12.345"))
  /\ (exists r, extract "exclusive_numa0.log" "7.5 ns/day" = Ok r
                /\ performance_ns_day r = Some (float_val "7.5")).
Proof.
  split.
  - eexists. split; [reflexivity|].
    destruct (performance_of_first_match "exclusive_numa0.log"
                "Performance:    12.345    ns/day" _ eq_refl) as [P _].
    apply (P "" "    " "12.345" "    " ""); try reflexivity. apply leftmost_nil.
  - eexists. split; [reflexivity|].
    destruct (performance_of_first_match "exclusive_numa0.log" "7.5 ns/day" _ eq_refl)
      as [_ P].
    apply (P (absent_by_search re_perf "7.5 ns/day" eq_refl) "" "7.5" " " "");
      try reflexivity.
    apply leftmost_nil.
Defined.

(** C1 as stated fails: a content that contains the line
    [Performance:    12.345    ns/day] after another performance line
    yields the number of the first line, 1.0, not 12.345. *)
Lemma performance_first_line_counterexample :
  let content :=
    "Performance: 1.0 ns/day" ++ nl ++ "Performance:    12.345    ns/day" in
  contains "Performance:    12.345    ns/day" content = true
  /\ exists r,
       extract "exclusive_numa0.log" content = Ok r
       /\ performance_ns_day r = Some (float_val "1.0")
       /\ performance_ns_day r <> Some (float_val "12.345").
Proof.
  split; [reflexivity|].
  eexists. split; [reflexivity|]. split; [reflexivity|].
  vm_compute. discriminate.
Qed.

Lemma no_match_in_leftmost (r : regex) (s pre : string) :
  no_match_in r s (length pre) = true -> leftmost r s pre.
Proof.
  intros H pre' O. revert s pre' H O.
  induction (length pre) as [|n IH]; intros s pre' H O; [lia|].
  cbn [no_match_in] in H. destruct (match_at r s) eqn:M; [discriminate|].
  destruct O as (m & post & c & -> & Hm).
  destruct pre' as [|x pre']; simpl in *.
  - destruct (match_at_complete r m post c Hm) as [c' E]. congruence.
  - apply le_n_S, (IH _ pre' H). now exists m, post, c.
Qed.

Lemma none_later_last (r : regex) (mid t : string) :
  none_later r t = true -> last_on_line r mid t.
Proof.
  intros H mid' t' E Hd L O.
  destruct (app_eq_app mid t mid' t' E) as [e [-> ->]]; [lia|].
  rewrite length_app in L. rewrite allb_app in Hd.
  apply andb_true_iff in Hd as [_ Hd]. clear E.
  revert t' H Hd L O.
  induction e as [|x e IH]; intros t' H Hd L O;
    cbn [none_later allb length append] in *; [lia|].
  apply andb_true_iff in Hd as [Hx Hd]. rewrite Hx in H.
  destruct (match_at r (e ++ t')) eqn:M; [discriminate|].
  destruct e as [|y e].
  - destruct O as (m & post & c & -> & Hm). simpl in M.
    destruct (match_at_complete r m post c Hm) as [c' E']. congruence.
  - apply (IH t' H Hd); [simpl; lia|exact O].
Qed.

(** C2, as amended. When the content has a timing line and a "Finished
    mdrun" pair, the core time is the first number of the first place where
    the timing pattern matches, and the wall time is the number of the
    override: that of the first place where a line with [Finished mdrun] is
    followed, on the very next line, by [wall <number> s], at the last such
    [wall] of that line. The override wins over the second number of the
    timing line. A record is returned only when both numbers are decimal
    literals. *)
Theorem override_wins (name content : string) (r : LogRecord)
    (pre ws1 n1 ws2 n2 ws3 n3 post : string)
    (fpre tail mid fws1 num fws2 fpost : string) :
  extract name content = Ok r ->
  content = pre ++ "Time:" ++ ws1 ++ n1 ++ ws2 ++ n2 ++ ws3 ++ n3 ++ post ->
  run_of is_space ws1 = true -> run_of is_numchar n1 = true ->
  run_of is_space ws2 = true -> run_of is_numchar n2 = true ->
  run_of is_space ws3 = true -> run_of is_numchar n3 = true ->
  leftmost re_time content pre ->
  content = fpre ++ "Finished mdrun" ++ tail ++ nl ++ mid ++ "wall" ++ fws1
                 ++ num ++ fws2 ++ "s" ++ fpost ->
  allb is_dot tail = true -> allb is_dot mid = true ->
  run_of is_space fws1 = true -> run_of is_numchar num = true ->
  run_of is_space fws2 = true ->
  leftmost re_finished content fpre ->
  last_on_line re_wall mid ("wall" ++ fws1 ++ num ++ fws2 ++ "s" ++ fpost) ->
  (decimal_literal n1 = true /\ core_time_s r = Some (float_val n1))
  /\ (decimal_literal num = true /\ wall_time_s r = Some (float_val num)).
Proof.
  intros H E H1 H2 H3 H4 H5 H6 L F Ht Hm F1 F2 F3 FL LL.
  assert (C : all_convert name content = true)
    by (apply extract_returns_iff; now exists r).
  destruct (extract_fields _ _ _ H) as (_ & _ & _ & _ & _ & _ & Hw & Hc).
  unfold all_convert in C. rewrite !andb_true_iff in C.
  destruct C as [[_ C1] C2].
  destruct (match_time_12 ws1 n1 ws2 n2 ws3 n3 post H1 H2 H3 H4 H5 H6) as [n3' M].
  assert (T : captured re_time content 1 = Some n1).
  { rewrite E in L |- *. now rewrite (leftmost_captured _ _ _ _ 1 L M). }
  assert (W : captured re_finished content 1 = Some num).
  { rewrite F in FL |- *.
    now rewrite (leftmost_captured _ _ _ [num] 1 FL
                   (match_finished _ _ _ _ _ _ Ht Hm F1 F2 F3 LL)). }
  unfold wall_text in Hw. rewrite T in *. rewrite W in *. simpl in *.
  now repeat split.
Qed.

(** [Time:  10.0  20.0  5.0], then [Finished mdrun] and [wall 25.0 s] on
    the next line: core time 10.0, wall time 25.0. *)
Lemma override_wins_witness :
  let content :=
    "Time:  10.0  20.0  5.0" ++ nl ++ "Finished mdrun" ++ nl ++ "wall 25.0 s" in
  exists r, extract "exclusive_numa0.log" content = Ok r
            /\ core_time_s r = Some (float_val "10.0")
            /\ wall_time_s r = Some (float_val "25.0").
Proof.
  eexists. split; [reflexivity|].
  destruct (override_wins "exclusive_numa0.log"
              ("Time:  10.0  20.0  5.0" ++ nl ++ "Finished mdrun" ++ nl ++ "wall 25.0 s")
              _ "" "  " "10.0" "  " "20.0" "  " "5.0"
              (nl ++ "Finished mdrun" ++ nl ++ "wall 25.0 s")
              ("Time:  10.0  20.0  5.0" ++ nl) "" "" " " "25.0" " " "" eq_refl)
    as [[_ C] [_ W]]; try reflexivity.
  - apply leftmost_nil.
  - apply no_match_in_leftmost. reflexivity.
  - apply none_later_last. reflexivity.
  - split; [exact C|exact W].
Defined.

(** C2 as stated fails: a content with the timing line
    [Time:  10.0  20.0  5.0] and the pair [Finished mdrun]/[wall 25.0 s],
    where another timing line comes first, yields the core time of that
    first line, 1.0, not 10.0. *)
Lemma core_time_first_line_counterexample :
  let content :=
    "Time:  1.0  2.0  3.0" ++ nl ++ "Time:  10.0  20.0  5.0" ++ nl
    ++ "Finished mdrun" ++ nl ++ "wall 25.0 s" in
  contains "Time:  10.0  20.0  5.0" content = true
  /\ contains ("Finished mdrun" ++ nl ++ "wall 25.0 s") content = true
  /\ exists r,
       extract "exclusive_numa0.log" content = Ok r
       /\ wall_time_s r = Some (float_val "25.0")
       /\ core_time_s r = Some (float_val "1.0")
       /\ core_time_s r <> Some (float_val "10.0").
Proof.
  split; [reflexivity|]. split; [reflexivity|].
  eexists. split; [reflexivity|]. split; [reflexivity|]. split; [reflexivity|].
  vm_compute. discriminate.
Qed.

(** C3, as amended. [extract] raises exactly when a text it converts does
    not convert: a number group that is not a decimal literal (as [1.2.3] or
    a lone full stop), or a digit group longer than the limit of [int]; what
    it raises then is a ValueError. A pattern that does not match raises
    nothing and leaves its field unset, and a content and name that no
    pattern matches give the bare record. *)
Theorem extract_raises_only_on_conversion (name content : string) :
  ((exists r, extract name content = Ok r) <-> all_convert name content = true)
  /\ (forall e, extract name content = Raise e ->
                all_convert name content = false /\ exists msg, e = ValueError msg)
  /\ (forall r, extract name content = Ok r ->
        (absent re_gpu content -> gpu_id r = None)
        /\ (absent re_perf content -> absent re_perf_alt content ->
            performance_ns_day r = None)
        /\ (absent re_time content -> core_time_s r = None)
        /\ (absent re_time content -> absent re_finished content ->
            wall_time_s r = None)
        /\ (absent re_cpubind content -> absent re_numa_name name ->
            numa_node r = None)
        /\ (absent re_task_name name -> task_id r = None))
  /\ (absent re_numa_name name -> absent re_task_name name ->
      absent re_cpubind content -> absent re_gpu content ->
      absent re_perf content -> absent re_perf_alt content ->
      absent re_time content -> absent re_finished content ->
      extract name content = Ok (bare_record name)).
Proof.
  split; [apply extract_returns_iff|]. split; [|split].
  - intros e E. split; [|now apply extract_raises_ValueError with (1 := E)].
    destruct (all_convert name content) eqn:C; [|reflexivity].
    apply extract_returns_iff in C as [r R]. congruence.
  - intros r H.
    destruct (extract_fields _ _ _ H) as (_ & _ & Hn & Hk & Hg & Hp & Hw & Hc).
    rewrite Hn, Hk, Hg, Hp, Hw, Hc.
    unfold numa_text, task_text, perf_text, wall_text.
    repeat split; intros; rewrite ?absent_captured by assumption;
      try reflexivity; now destruct (contains "exclusive" name).
  - intros A1 A2 A3 A4 A5 A6 A7 A8.
    unfold extract, step_name, step_perf, step_time, assign, bare_record.
    apply search_None in A1, A2, A3, A4, A5, A6, A7, A8.
    rewrite A1, A2, A3, A4, A5, A7, A8.
    destruct (contains "exclusive" name); simpl; now rewrite A6.
Qed.

(** A content that no pattern matches: nothing is raised, nothing is set. *)
Lemma extract_raises_only_on_conversion_witness :
  extract "run.log" "no numbers here" = Ok (bare_record "run.log").
Proof.
  destruct (extract_raises_only_on_conversion "run.log" "no numbers here")
    as (_ & _ & _ & B).
  apply B; apply absent_by_search; reflexivity.
Defined.

(** C3 as stated fails: the performance pattern matches [1.2.3], which
    [float] does not convert, and [extract] raises. *)
Lemma extract_raises_counterexample :
  search re_perf "Performance: 1.2.3 ns/day" = Some ["1.2.3"]
  /\ extract "exclusive_numa0.log" "Performance: 1.2.3 ns/day"
     = Raise (ValueError "could not convert string to float").
Proof. split; reflexivity. Qed.

(** ** Sorting *)

Section Sorting.
Context {A : Type} (le : A -> A -> bool).
Hypothesis le_total : forall x y, le x y = true \/ le y x = true.
Hypothesis le_trans : forall x y z, le x y = true -> le y z = true -> le x z = true.

Let R (x y : A) : Prop := le x y = true.

Lemma insert_perm (x : A) (l : list A) : Permutation (insert le x l) (x :: l).
Proof.
  induction l as [|y l IH]; simpl; [reflexivity|].
  destruct (le x y); [reflexivity|].
  rewrite IH. apply perm_swap.
Qed.

Lemma sorted_perm (l : list A) : Permutation (sorted le l) l.
Proof.
  induction l as [|x l IH]; simpl; [reflexivity|].
  rewrite insert_perm. now constructor.
Qed.

Lemma insert_sorted (x : A) (l : list A) :
  StronglySorted R l -> StronglySorted R (insert le x l).
Proof.
  induction 1 as [|y l S IH F]; simpl.
  - repeat constructor.
  - destruct (le x y) eqn:E.
    + constructor; [now constructor|]. constructor; [exact E|].
      eapply Forall_impl; [|exact F]. intros z. now apply le_trans.
    + constructor; [exact IH|].
      assert (Forall (R y) (x :: l)) as G.
      { constructor; [|exact F]. destruct (le_total x y); [congruence|assumption]. }
      eapply Permutation_Forall; [|exact G]. symmetry. apply insert_perm.
Qed.

Lemma sorted_sorted (l : list A) : StronglySorted R (sorted le l).
Proof.
  induction l as [|x l IH]; simpl; [constructor|]. now apply insert_sorted.
Qed.

(** A list has one sorted arrangement, when the order tells its elements
    apart. *)
Lemma sorted_unique (l1 l2 : list A) :
  StronglySorted R l1 -> StronglySorted R l2 -> Permutation l1 l2 ->
  (forall x y, In x l1 -> In y l1 -> le x y = true -> le y x = true -> x = y) ->
  l1 = l2.
Proof.
  intros S1. revert l2. induction S1 as [|x l1 S1 IH F1]; intros l2 S2 P Anti.
  - apply Permutation_nil in P. now subst.
  - destruct S2 as [|y l2 S2 F2].
    + apply Permutation_sym, Permutation_nil in P. discriminate.
    + assert (x = y) as <-.
      { assert (Ix : In x (y :: l2)) by (eapply Permutation_in; [exact P|now left]).
        assert (Iy : In y (x :: l1))
          by (eapply Permutation_in; [symmetry; exact P|now left]).
        destruct Iy as [->|Iy]; [reflexivity|].
        destruct Ix as [->|Ix]; [reflexivity|].
        rewrite Forall_forall in F1, F2.
        apply Anti; [now left|now right|now apply F1|now apply F2]. }
      f_equal. apply IH; [exact S2|now apply Permutation_cons_inv in P|].
      intros a b Ia Ib. apply Anti; now right.
Qed.
End Sorting.

(** The order of names. *)

Lemma ascii_compare_refl (a : ascii) : Ascii.compare a a = Eq.
Proof. unfold Ascii.compare. apply N.compare_refl. Qed.

Lemma string_compare_refl (s : string) : String.compare s s = Eq.
Proof. induction s as [|c s IH]; simpl; [reflexivity|]. now rewrite ascii_compare_refl. Qed.

Lemma string_lt_trans (a b c : string) :
  String.compare a b = Lt -> String.compare b c = Lt -> String.compare a c = Lt.
Proof.
  revert b c. induction a as [|x a IH]; intros [|y b] [|z c]; simpl; try congruence.
  destruct (Ascii.compare x y) eqn:E1; [|intros _|discriminate].
  - apply Ascii.compare_eq_iff in E1 as ->.
    destruct (Ascii.compare y z); [apply IH|reflexivity|discriminate].
  - destruct (Ascii.compare y z) eqn:E2; [|intros _|discriminate].
    + apply Ascii.compare_eq_iff in E2 as <-. now rewrite E1.
    + unfold Ascii.compare in *. rewrite N.compare_lt_iff in *.
      assert (L : (N_of_ascii x < N_of_ascii z)%N) by lia.
      apply N.compare_lt_iff in L. now rewrite L.
Qed.

Lemma string_leb_trans (a b c : string) :
  String.leb a b = true -> String.leb b c = true -> String.leb a c = true.
Proof.
  unfold String.leb.
  destruct (String.compare a b) eqn:E1; [|intros _|discriminate].
  - apply String.compare_eq_iff in E1 as ->. tauto.
  - destruct (String.compare b c) eqn:E2; [|intros _|discriminate].
    + apply String.compare_eq_iff in E2 as <-. now rewrite E1.
    + now rewrite (string_lt_trans a b c E1 E2).
Qed.

Lemma path_le_total (f g : entry) : path_le f g = true \/ path_le g f = true.
Proof. apply String.leb_total. Qed.

Lemma path_le_trans (f g h : entry) :
  path_le f g = true -> path_le g h = true -> path_le f h = true.
Proof. apply string_leb_trans. Qed.

(** ** The collector *)

Lemma fold_parse_one (l : list entry) (results : list LogRecord) (out : list string) :
  fold_left parse_one l (results, out)
  = ((results ++ flat_map record_of l)%list, (out ++ map message l)%list).
Proof.
  revert results out. induction l as [|f l IH]; intros results out; simpl.
  - now rewrite !List.app_nil_r.
  - unfold record_of at 1, message at 1.
    destruct (parse_gromacs_log f) as [r|e]; rewrite IH, <- !List.app_assoc; reflexivity.
Qed.

Lemma parse_all_results_out_eq (data_dir : directory) :
  parse_all_results_out data_dir
  = ((flat_map record_of (sorted path_le (glob data_dir "exclusive_numa*.log"))
      ++ flat_map record_of (sorted path_le (glob data_dir "shared_task*.log")))%list,
     (map message (sorted path_le (glob data_dir "exclusive_numa*.log"))
      ++ map message (sorted path_le (glob data_dir "shared_task*.log")))%list).
Proof.
  unfold parse_all_results_out, patterns. simpl fold_left.
  now rewrite !fold_parse_one.
Qed.

Lemma in_record_of (l : list entry) (r : LogRecord) :
  In r (flat_map record_of l) <->
  exists f, In f l /\ parse_gromacs_log f = Ok r.
Proof.
  rewrite in_flat_map. unfold record_of. split; intros [f [I H]]; exists f; split; trivial.
  - destruct (parse_gromacs_log f); [destruct H as [->|[]]; reflexivity|destruct H].
  - rewrite H. now left.
Qed.

Lemma parsed_file (f : entry) (r : LogRecord) :
  parse_gromacs_log f = Ok r -> file r = name f.
Proof.
  unfold parse_gromacs_log. destruct (read_text f); simpl; [|discriminate].
  intros H. now destruct (extract_fields _ _ _ H).
Qed.

Lemma in_sorted_glob (data_dir : directory) (pattern : string) (f : entry) :
  In f (sorted path_le (glob data_dir pattern)) <->
  In f data_dir /\ fnmatch pattern (name f) = true.
Proof.
  unfold glob.
  rewrite <- (filter_In (fun g => fnmatch pattern (name g)) f data_dir).
  split; apply Permutation_in.
  - apply sorted_perm.
  - symmetry. apply sorted_perm.
Qed.

Lemma perm_filter {A : Type} (p : A -> bool) (l l' : list A) :
  Permutation l l' -> Permutation (filter p l) (filter p l').
Proof.
  induction 1 as [|x l l' P IH|x y l|l l' l'' P1 IH1 P2 IH2]; simpl.
  - constructor.
  - destruct (p x); [now constructor|exact IH].
  - destruct (p x), (p y); try reflexivity. apply perm_swap.
  - now transitivity (filter p l').
Qed.

Lemma length_record_of (l : list entry) :
  List.length (flat_map record_of l) = List.length (filter parses l).
Proof.
  induction l as [|f l IH]; simpl; [reflexivity|].
  unfold record_of at 1, parses at 1.
  destruct (parse_gromacs_log f); simpl; now rewrite IH.
Qed.

(** No name matches both patterns. *)
Lemma patterns_disjoint (n : string) :
  fnmatch "exclusive_numa*.log" n = true -> fnmatch "shared_task*.log" n = false.
Proof.
  destruct n as [|c n]; [discriminate|].
  change (fnmatch "exclusive_numa*.log" (String c n))
    with (Ascii.eqb "e" c && fnmatch "xclusive_numa*.log" n).
  change (fnmatch "shared_task*.log" (String c n))
    with (Ascii.eqb "s" c && fnmatch "hared_task*.log" n).
  destruct (Ascii.eqb_spec "e"%char c) as [<-|]; [reflexivity|discriminate].
Qed.

Lemma length_wanted (data_dir : directory) :
  List.length (filter (fun g => wanted g && parses g) data_dir)
  = List.length (filter parses (glob data_dir "exclusive_numa*.log"))
    + List.length (filter parses (glob data_dir "shared_task*.log")).
Proof.
  unfold glob, wanted. induction data_dir as [|f l IH]; [reflexivity|].
  cbn [filter].
  destruct (fnmatch "exclusive_numa*.log" (name f)) eqn:E1.
  - rewrite (patterns_disjoint _ E1). cbn [orb andb filter].
    destruct (parses f); cbn [List.length]; now rewrite IH.
  - destruct (fnmatch "shared_task*.log" (name f)); cbn [orb andb filter];
      [|exact IH].
    destruct (parses f); cbn [List.length]; rewrite IH; lia.
Qed.

(** C6. One file that fails does not stop the collector. Every file of the
    directory whose name matches a pattern is dealt with on its own: when it
    parses, its record is in the results; when reading or extracting it
    raises, a diagnostic with its name and the error is printed and it adds
    no record, so that the results have one record for each matching file
    that parses, whatever the other files do. *)
Theorem bad_file_is_skipped (data_dir : directory) (f : entry) :
  In f data_dir -> wanted f = true ->
  (forall r, parse_gromacs_log f = Ok r -> In r (parse_all_results data_dir))
  /\ (forall e, parse_gromacs_log f = Raise e ->
                In ("Error parsing " ++ name f ++ ": " ++ str_exn e)
                   (snd (parse_all_results_out data_dir)))
  /\ List.length (parse_all_results data_dir)
     = List.length (filter (fun g => wanted g && parses g) data_dir).
Proof.
  intros I W. unfold parse_all_results. rewrite parse_all_results_out_eq.
  cbn [fst snd]. unfold wanted in W. apply orb_true_iff in W.
  repeat split.
  - intros r H. apply in_or_app.
    destruct W as [W|W]; [left|right]; apply in_record_of; exists f;
      (split; [now apply in_sorted_glob|exact H]).
  - intros e H. apply in_or_app.
    assert (M : message f = "Error parsing " ++ name f ++ ": " ++ str_exn e)
      by (unfold message; now rewrite H).
    rewrite <- M.
    destruct W as [W|W]; [left|right]; apply in_map; now apply in_sorted_glob.
  - rewrite List.length_app, !length_record_of, length_wanted.
    f_equal; apply Permutation_length, perm_filter, sorted_perm.
Qed.

(** A directory with one good and one undecodable file gives exactly one
    record, and the diagnostic for the other file. *)
Lemma bad_file_is_skipped_witness :
  let good := mkEntry "exclusive_numa0.log" (Ok "Performance: 1.5 ns/day") in
  let corrupt :=
    mkEntry "shared_task0.log"
      (Raise (UnicodeDecodeError "'utf-8' codec can't decode byte 0xff")) in
  List.length (parse_all_results [corrupt; good]) = 1
  /\ In "Error parsing shared_task0.log: 'utf-8' codec can't decode byte 0xff"
        (snd (parse_all_results_out [corrupt; good]))
  /\ exists r, In r (parse_all_results [corrupt; good])
               /\ file r = "exclusive_numa0.log".
Proof.
  intros good corrupt.
  destruct (bad_file_is_skipped [corrupt; good] corrupt) as (_ & D & L);
    [now left|reflexivity|].
  destruct (bad_file_is_skipped [corrupt; good] good) as (G & _ & _);
    [right; now left|reflexivity|].
  split; [rewrite L; reflexivity|]. split.
  - exact (D _ eq_refl).
  - eexists. split; [apply G; reflexivity|reflexivity].
Defined.

Lemma record_of_sorted (l : list entry) :
  StronglySorted (fun f g => path_le f g = true) l ->
  StronglySorted by_file (flat_map record_of l).
Proof.
  induction 1 as [|f l S IH F]; simpl; [constructor|].
  unfold record_of at 1. destruct (parse_gromacs_log f) as [r|e] eqn:P; simpl;
    [|exact IH].
  constructor; [exact IH|].
  apply Forall_forall. intros r' I. apply in_record_of in I as [g [Ig Pg]].
  rewrite Forall_forall in F. specialize (F g Ig).
  unfold by_file. now rewrite (parsed_file _ _ P), (parsed_file _ _ Pg).
Qed.

Lemma record_of_glob (data_dir : directory) (pattern : string) :
  Forall (fun r => fnmatch pattern (file r) = true)
    (flat_map record_of (sorted path_le (glob data_dir pattern))).
Proof.
  apply Forall_forall. intros r I. apply in_record_of in I as [f [If Pf]].
  apply in_sorted_glob in If as [_ M]. now rewrite (parsed_file _ _ Pf).
Qed.

Lemma same_name_same_entry (l : list entry) (f g : entry) :
  NoDup (map name l) -> In f l -> In g l -> name f = name g -> f = g.
Proof.
  induction l as [|x l IH]; simpl; intros N If Ig E; [destruct If|].
  inversion N as [|? ? Nx Nl]; subst.
  destruct If as [->|If], Ig as [->|Ig]; trivial.
  - exfalso. apply Nx. rewrite E. now apply in_map.
  - exfalso. apply Nx. rewrite <- E. now apply in_map.
  - now apply IH.
Qed.

(** The listing order of the directory does not show in the sorted glob. *)
Lemma sorted_glob_perm (d d' : directory) (pattern : string) :
  NoDup (map name d) -> Permutation d d' ->
  sorted path_le (glob d' pattern) = sorted path_le (glob d pattern).
Proof.
  intros N P. apply (sorted_unique path_le).
  - apply sorted_sorted; [apply path_le_total|apply path_le_trans].
  - apply sorted_sorted; [apply path_le_total|apply path_le_trans].
  - rewrite !sorted_perm. apply perm_filter. now symmetry.
  - intros f g If Ig L1 L2.
    apply in_sorted_glob in If as [If _], Ig as [Ig _].
    apply (same_name_same_entry d); trivial.
    + eapply Permutation_in; [symmetry; exact P|exact If].
    + eapply Permutation_in; [symmetry; exact P|exact Ig].
    + now apply String.leb_antisym.
Qed.

(** C7. The results come pattern by pattern and, within a pattern, in the
    order of the file names: first the records of the files that match
    [exclusive_numa*.log], sorted by name, then those of the files that match
    [shared_task*.log], sorted by name. The list does not depend on the
    order in which the system lists the directory. *)
Theorem results_by_pattern_then_name (data_dir : directory) :
  (exists l1 l2,
     parse_all_results data_dir = (l1 ++ l2)%list
     /\ Forall (fun r => fnmatch "exclusive_numa*.log" (file r) = true) l1
     /\ Forall (fun r => fnmatch "shared_task*.log" (file r) = true) l2
     /\ StronglySorted by_file l1
     /\ StronglySorted by_file l2)
  /\ (forall data_dir',
        NoDup (map name data_dir) -> Permutation data_dir data_dir' ->
        parse_all_results data_dir' = parse_all_results data_dir).
Proof.
  unfold parse_all_results. split.
  - rewrite parse_all_results_out_eq. cbn [fst].
    do 2 eexists. split; [reflexivity|].
    repeat split; try apply record_of_glob;
      apply record_of_sorted, sorted_sorted;
      solve [apply path_le_total | apply path_le_trans].
  - intros d' N P. rewrite !parse_all_results_out_eq. cbn [fst].
    now rewrite !(sorted_glob_perm data_dir d' _ N P).
Qed.

(** Two listings of one directory give the same results, in the order of
    the names. *)
Lemma results_by_pattern_then_name_witness :
  let a := mkEntry "shared_task2.log" (Ok "") in
  let b := mkEntry "exclusive_numa10.log" (Ok "") in
  let c := mkEntry "exclusive_numa2.log" (Ok "") in
  parse_all_results [c; a; b] = parse_all_results [a; b; c]
  /\ map file (parse_all_results [a; b; c])
     = ["exclusive_numa10.log"; "exclusive_numa2.log"; "shared_task2.log"].
Proof.
  intros a b c. split; [|reflexivity].
  destruct (results_by_pattern_then_name [a; b; c]) as [_ D].
  apply D.
  - repeat constructor; simpl; intuition discriminate.
  - apply Permutation_sym.
    change [c; a; b] with ([c] ++ [a; b])%list.
    change [a; b; c] with ([a; b] ++ [c])%list.
    apply Permutation_app_comm.
Defined.

(** ** The reporter *)

Lemma truthy_perfs_eq (l : list LogRecord) :
  truthy_perfs l = filter float_truthy (non_null_perfs l).
Proof.
  induction l as [|r l IH]; simpl; [reflexivity|].
  destruct (performance_ns_day r) as [v|]; simpl; [|exact IH].
  destruct (float_truthy v); now rewrite IH.
Qed.

Lemma average_lines_eq (subset : list LogRecord) :
  average_lines subset = average_of subset.
Proof.
  unfold average_lines, average_of. rewrite truthy_perfs_eq.
  now destruct (filter float_truthy (non_null_perfs subset)).
Qed.

(** C5, as amended. For each queue with at least one record, the summary
    prints the table of the queue and then the mean, to three decimals, of
    the performance of the records of the queue whose performance is
    neither None nor zero; the line is left out when no record of the queue
    has such a value. *)
Theorem average_over_nonzero (results : list LogRecord) :
  results <> [] ->
  let exclusive := of_type "exclusive" results in
  let shared := of_type "shared" results in
  print_summary results
  = ([banner; "GROMACS Benchmark Results Summary"; rule "="%char 70]
     ++ (match exclusive with
         | [] => []
         | _ => [exclusive_title; exclusive_header; rule "-"%char 40]
                ++ map exclusive_row (sorted (by_key numa_node) exclusive)
                ++ average_of exclusive
         end)
     ++ (match shared with
         | [] => []
         | _ => [shared_title; shared_header; rule "-"%char 50]
                ++ map shared_row (sorted (by_key task_id) shared)
                ++ average_of shared
         end)
     ++ [banner])%list.
Proof.
  intros N exclusive shared. destruct results as [|r results]; [congruence|].
  unfold print_summary, exclusive_block, shared_block.
  fold exclusive shared. rewrite !average_lines_eq. reflexivity.
Qed.

(** Two exclusive records, on NUMA nodes 0 and 1, with performances 10.0
    and 20.0: the average line shows 15.000. *)
Lemma average_over_nonzero_witness :
  let r0 := mkRecord "exclusive_numa0.log" "exclusive" (Some 0%Z) None None
              (Some (float_val "10.0")) None None in
  let r1 := mkRecord "exclusive_numa1.log" "exclusive" (Some 1%Z) None None
              (Some (float_val "20.0")) None None in
  In (String newline "Average: 15.000 ns/day") (print_summary [r0; r1]).
Proof.
  intros r0 r1.
  rewrite (average_over_nonzero [r0; r1]); [|discriminate].
  vm_compute. tauto.
Defined.

(** C5 as stated fails: a record whose performance is 0.0 has a value that
    is not None, yet it is left out of the mean. With 0.0 and 3.0 the
    summary prints 3.000, and the mean of the two values is 1.500. *)
Lemma average_skips_zero_counterexample :
  let r0 := mkRecord "exclusive_numa0.log" "exclusive" (Some 0%Z) None None
              (Some (float_val "0.0")) None None in
  let r1 := mkRecord "exclusive_numa1.log" "exclusive" (Some 1%Z) None None
              (Some (float_val "3.0")) None None in
  non_null_perfs [r0; r1] = [float_val "0.0"; float_val "3.0"]
  /\ average_line (non_null_perfs [r0; r1]) = String newline "Average: 1.500 ns/day"
  /\ In (String newline "Average: 3.000 ns/day") (print_summary [r0; r1])
  /\ ~ In (String newline "Average: 1.500 ns/day") (print_summary [r0; r1]).
Proof.
  intros r0 r1. split; [reflexivity|]. split; [vm_compute; reflexivity|].
  split; vm_compute; [tauto|]. intuition discriminate.
Qed.

(** ** The entry point *)







(** * Further properties of the script *)

(** ** The extractor *)

(** X1. The record carries the name of its file, its category is one of
    the two, an exclusive record never has a task id, and a shared record
    has a NUMA node only when the content reports a binding. *)
Theorem category_fields (name content : string) (r : LogRecord) :
  extract name content = Ok r ->
  file r = name
  /\ (type r = "exclusive" \/ type r = "shared")
  /\ (type r = "exclusive" -> task_id r = None)
  /\ (type r = "shared" -> absent re_cpubind content -> numa_node r = None).
Proof.
  intros H. destruct (extract_fields _ _ _ H) as (Hf & Ht & Hn & Hk & _).
  rewrite Hf, Ht, Hn, Hk. unfold task_text, numa_text.
  destruct (contains "exclusive" name).
  - repeat split; auto. discriminate.
  - repeat split; auto; [discriminate|].
    intros _ A. now rewrite (absent_captured _ _ _ A).
Qed.

Lemma category_fields_witness :
  exists r, extract "exclusive_numa3.log" "cpubind: 1" = Ok r
            /\ file r = "exclusive_numa3.log" /\ task_id r = None.
Proof.
  eexists. split; [reflexivity|].
  destruct (category_fields "exclusive_numa3.log" "cpubind: 1" _ eq_refl)
    as (F & _ & T & _).
  split; [exact F|]. apply T. reflexivity.
Defined.

(** X2. A binding report in the content decides the NUMA node of a file of
    either category, whatever number its name holds: the node is the value
    of the digits after the first [cpubind:] that is followed by optional
    white space and a digit. *)
Theorem binding_overrides_name (name content : string) (r : LogRecord)
    (pre ws ds post : string) :
  extract name content = Ok r ->
  content = pre ++ "cpubind:" ++ ws ++ ds ++ post ->
  allb is_space ws = true -> run_of is_digit ds = true ->
  starts is_digit post = false ->
  leftmost re_cpubind content pre ->
  numa_node r = Some (int_val ds).
Proof.
  intros H E Hw Hd Hp L.
  destruct (extract_fields _ _ _ H) as (_ & _ & Hn & _).
  rewrite Hn. unfold numa_text. subst content.
  now rewrite (leftmost_captured _ _ _ [ds] 1 L (match_cpubind _ _ _ Hw Hd Hp)).
Qed.

Lemma binding_overrides_name_witness :
  exists r, extract "exclusive_numa3.log" "cpubind: 1" = Ok r
            /\ numa_node r = Some 1%Z.
Proof.
  eexists. split; [reflexivity|].
  apply (binding_overrides_name "exclusive_numa3.log" "cpubind: 1" _
           "" " " "1" "" eq_refl); try reflexivity.
  apply leftmost_nil.
Defined.

(** X3. The GPU id is the value of the digits after the first
    [CUDA_VISIBLE_DEVICES:] of the content that is followed by optional
    white space and a digit; only the first device of a list is read. *)
Theorem gpu_of_first_match (name content : string) (r : LogRecord)
    (pre ws ds post : string) :
  extract name content = Ok r ->
  content = pre ++ "CUDA_VISIBLE_DEVICES:" ++ ws ++ ds ++ post ->
  allb is_space ws = true -> run_of is_digit ds = true ->
  starts is_digit post = false ->
  leftmost re_gpu content pre ->
  gpu_id r = Some (int_val ds).
Proof.
  intros H E Hw Hd Hp L.
  destruct (extract_fields _ _ _ H) as (_ & _ & _ & _ & Hg & _).
  rewrite Hg. subst content.
  now rewrite (leftmost_captured _ _ _ [ds] 1 L (match_gpu _ _ _ Hw Hd Hp)).
Qed.

Lemma gpu_of_first_match_witness :
  exists r, extract "shared_task0.log" "CUDA_VISIBLE_DEVICES: 2,3" = Ok r
            /\ gpu_id r = Some 2%Z.
Proof.
  eexists. split; [reflexivity|].
  apply (gpu_of_first_match "shared_task0.log" "CUDA_VISIBLE_DEVICES: 2,3" _
           "" " " "2" ",3" eq_refl); try reflexivity.
  apply leftmost_nil.
Defined.

(** X4. Without the "Finished mdrun" pair, the timing line gives both
    times: the core time is its first number and the wall time its
    second. *)
Theorem times_of_timing_line (name content : string) (r : LogRecord)
    (pre ws1 n1 ws2 n2 ws3 n3 post : string) :
  extract name content = Ok r ->
  content = pre ++ "Time:" ++ ws1 ++ n1 ++ ws2 ++ n2 ++ ws3 ++ n3 ++ post ->
  run_of is_space ws1 = true -> run_of is_numchar n1 = true ->
  run_of is_space ws2 = true -> run_of is_numchar n2 = true ->
  run_of is_space ws3 = true -> run_of is_numchar n3 = true ->
  leftmost re_time content pre ->
  ~ finished_pair content ->
  core_time_s r = Some (float_val n1) /\ wall_time_s r = Some (float_val n2).
Proof.
  intros H E H1 H2 H3 H4 H5 H6 L NF.
  destruct (extract_fields _ _ _ H) as (_ & _ & _ & _ & _ & _ & Hw & Hc).
  destruct (match_time_12 ws1 n1 ws2 n2 ws3 n3 post H1 H2 H3 H4 H5 H6) as [n3' M].
  assert (F : captured re_finished content 1 = None).
  { apply captured_None. destruct (search re_finished content) as [c|] eqn:S;
      [|reflexivity].
    exfalso. apply NF, finished_pair_search. now exists c. }
  rewrite Hw, Hc. unfold wall_text. rewrite F. subst content.
  now rewrite !(leftmost_captured _ _ _ _ _ L M).
Qed.

Lemma times_of_timing_line_witness :
  exists r, extract "shared_task0.log" "Time:  10.0  20.0  5.0" = Ok r
            /\ core_time_s r = Some (float_val "10.0")
            /\ wall_time_s r = Some (float_val "20.0").
Proof.
  eexists. split; [reflexivity|].
  apply (times_of_timing_line "shared_task0.log" "Time:  10.0  20.0  5.0" _
           "" "  " "10.0" "  " "20.0" "  " "5.0" "" eq_refl); try reflexivity.
  - apply leftmost_nil.
  - apply (no_finished_pair "Time:  10.0  20.0  5.0"). reflexivity.
Defined.

(** The rounding of a mantissa that is not negative gives no NaN and keeps
    the sign. *)

Lemma shr_1_nonneg (mrs : shr_record) :
  (0 <= shr_m mrs)%Z -> (0 <= shr_m (shr_1 mrs))%Z.
Proof.
  destruct mrs as [m r s]. destruct m as [|p|p]; simpl; try lia;
    destruct p; simpl; lia.
Qed.

Lemma iter_shr_1_nonneg (p : positive) :
  forall mrs, (0 <= shr_m mrs)%Z -> (0 <= shr_m (iter_pos shr_1 p mrs))%Z.
Proof.
  induction p as [p IH|p IH|]; intros mrs H; simpl.
  - apply IH, IH. now apply shr_1_nonneg.
  - now apply IH, IH.
  - now apply shr_1_nonneg.
Qed.

Lemma shr_fexp_nonneg (m e : Z) (l : location) :
  (0 <= m)%Z -> (0 <= shr_m (fst (shr_fexp prec emax m e l)))%Z.
Proof.
  intros H. unfold shr_fexp, shr.
  assert (G : (0 <= shr_m (shr_record_of_loc m l))%Z)
    by (destruct l as [|[]]; exact H).
  destruct (fexp prec emax (Zdigits2 m + e) - e)%Z; simpl; trivial.
  now apply iter_shr_1_nonneg.
Qed.

Lemma round_nearest_even_nonneg (m : Z) (l : location) :
  (0 <= m)%Z -> (0 <= round_nearest_even m l)%Z.
Proof.
  intros H. destruct l as [|[]]; simpl; try lia. destruct (Z.even m); lia.
Qed.

Lemma binary_round_aux_nonneg (m e : Z) (l : location) :
  (0 <= m)%Z -> float_nonneg (binary_round_aux prec emax false m e l) = true.
Proof.
  intros H. unfold binary_round_aux.
  pose proof (shr_fexp_nonneg m e l H) as H1.
  destruct (shr_fexp prec emax m e l) as [mrs' e']. simpl in H1.
  pose proof (shr_fexp_nonneg _ e' loc_Exact
                (round_nearest_even_nonneg _ (loc_of_shr_record mrs') H1)) as H2.
  destruct (shr_fexp prec emax (round_nearest_even (shr_m mrs') (loc_of_shr_record mrs'))
              e' loc_Exact) as [mrs'' e''].
  simpl in H2. destruct (shr_m mrs'') as [|q|q]; [reflexivity| |lia].
  now destruct (e'' <=? emax - prec)%Z.
Qed.

Lemma float_of_ratio_nonneg (n d : Z) :
  (0 < d)%Z -> float_nonneg (float_of_ratio n d) = true.
Proof.
  intros Hd. unfold float_of_ratio. destruct n as [|p|p]; try reflexivity.
  unfold SFdiv_core_binary.
  set (s := (0 - 0 - _)%Z).
  set (m' := match s with Zpos _ => Z.shiftl (Zpos p) s | Z0 => Zpos p | Zneg _ => 0%Z end).
  assert (Hm : (0 <= m')%Z).
  { subst m'. destruct s; try lia. apply Z.shiftl_nonneg. lia. }
  assert (D : (0 <= fst (Z.div_eucl m' d))%Z) by (apply Z.div_pos; lia).
  destruct (Z.div_eucl m' d) as [q r]. now apply binary_round_aux_nonneg.
Qed.

Lemma digits_val_nonneg (s : string) :
  allb is_digit s = true -> forall acc, (0 <= acc)%Z -> (0 <= digits_val acc s)%Z.
Proof.
  induction s as [|c s IH]; cbn [digits_val allb]; intros H acc A; [exact A|].
  apply andb_true_iff in H as [Hc Hs]. apply IH; [exact Hs|].
  unfold is_digit in Hc. apply andb_true_iff in Hc as [L _].
  apply N.leb_le in L. unfold digit_val. generalize dependent (code c). lia.
Qed.

Lemma float_val_nonneg (s : string) : float_nonneg (float_val s) = true.
Proof.
  unfold float_val. destruct (split_dot s) as [ip fp].
  apply float_of_ratio_nonneg. apply Z.pow_pos_nonneg; lia.
Qed.

(** X5. The numbers of a record are never negative: the NUMA node, the
    task id and the GPU id are non-negative integers, and the performance
    and the two times are zero, positive or infinite, never negative and
    never a NaN (no pattern reads a sign). *)
Theorem fields_nonnegative (name content : string) (r : LogRecord) :
  extract name content = Ok r ->
  field_ok (Z.leb 0) (numa_node r) = true
  /\ field_ok (Z.leb 0) (task_id r) = true
  /\ field_ok (Z.leb 0) (gpu_id r) = true
  /\ field_ok float_nonneg (performance_ns_day r) = true
  /\ field_ok float_nonneg (wall_time_s r) = true
  /\ field_ok float_nonneg (core_time_s r) = true.
Proof.
  intros H.
  destruct (extract_fields _ _ _ H) as (_ & _ & Hn & Hk & Hg & Hp & Hw & Hc).
  rewrite Hn, Hk, Hg, Hp, Hw, Hc.
  assert (I : forall re s, In re [re_numa_name; re_task_name; re_cpubind; re_gpu] ->
                field_ok (Z.leb 0) (option_map int_val (captured re s 1)) = true).
  { intros re s Hin. unfold captured.
    destruct (search re s) as [m|] eqn:E; [|reflexivity]. simpl.
    apply Z.leb_le, digits_val_nonneg; [|lia].
    now apply run_of_spec, (search_digits re s m Hin E). }
  assert (F : forall o, field_ok float_nonneg (option_map float_val o) = true).
  { intros [t|]; [apply float_val_nonneg|reflexivity]. }
  repeat split; try apply F.
  - unfold numa_text.
    pose proof (I re_cpubind content ltac:(simpl; tauto)) as C.
    destruct (captured re_cpubind content 1); [exact C|].
    destruct (contains "exclusive" name); [|reflexivity].
    apply I. simpl. tauto.
  - unfold task_text. destruct (contains "exclusive" name); [reflexivity|].
    apply I. simpl. tauto.
  - apply I. simpl. tauto.
Qed.

Lemma fields_nonnegative_witness :
  exists r, extract "shared_task12.log" "Performance: 0.5 ns/day" = Ok r
            /\ field_ok (Z.leb 0) (task_id r) = true
            /\ field_ok float_nonneg (performance_ns_day r) = true.
Proof.
  eexists. split; [reflexivity|].
  destruct (fields_nonnegative "shared_task12.log" "Performance: 0.5 ns/day" _ eq_refl)
    as (_ & T & _ & P & _).
  split; [exact T|exact P].
Defined.

(** X6. The looser performance pattern covers the primary one: a content
    in which the primary pattern matches somewhere is a content in which
    the looser pattern matches somewhere. *)
Theorem looser_pattern_covers (content pre : string) :
  occurs_at re_perf content pre ->
  exists pre', occurs_at re_perf_alt content pre'.
Proof.
  intros (m & post & caps & -> & M).
  apply matches_perf in M as (ws1 & num & ws2 & -> & _ & H1 & H2 & H3).
  exists (pre ++ "Performance:" ++ ws1), (num ++ ws2 ++ "ns/day"), post, [num].
  split; [now rewrite !app_assoc|].
  apply run_of_spec in H2 as [? ?], H3 as [? ?]. unfold re_perf_alt.
  apply (M_Cat _ _ _ _ [num] []); [apply (M_Grp _ _ []); now constructor|].
  apply (M_Cat _ _ _ _ [] []); [now constructor|constructor].
Qed.

Lemma looser_pattern_covers_witness :
  exists pre', occurs_at re_perf_alt "Performance: 12.345 ns/day" pre'.
Proof.
  apply (looser_pattern_covers "Performance: 12.345 ns/day" "").
  exists "Performance: 12.345 ns/day", "", ["12.345"]. split; [reflexivity|].
  unfold re_perf.
  apply (M_Cat _ _ "Performance:" " 12.345 ns/day" [] ["12.345"]); [constructor|].
  apply (M_Cat _ _ " " "12.345 ns/day" [] ["12.345"]);
    [constructor; [reflexivity|discriminate]|].
  apply (M_Cat _ _ "12.345" " ns/day" ["12.345"] []);
    [apply (M_Grp _ _ []); constructor; [reflexivity|discriminate]|].
  apply (M_Cat _ _ " " "ns/day" [] []);
    [constructor; [reflexivity|discriminate]|constructor].
Defined.

(** The digits read from a text are no longer than the text. *)
Lemma digits_within (re : regex) (s : string) (m : list string) :
  In re [re_numa_name; re_task_name; re_cpubind; re_gpu] ->
  search re s = Some m -> length (group 1 m) <= length s.
Proof.
  intros I E. destruct (search_sound _ _ _ E) as (pre & t & post & -> & M).
  rewrite !length_app. simpl in I. destruct I as [<-|[<-|[<-|[<-|[]]]]].
  - apply matches_numa_name in M as (ds & -> & -> & _).
    rewrite length_app. unfold group. simpl. lia.
  - apply matches_task_name in M as (ds & -> & -> & _).
    rewrite length_app. unfold group. simpl. lia.
  - apply matches_cpubind in M as (ws & ds & -> & -> & _).
    rewrite !length_app. unfold group. simpl. lia.
  - apply matches_gpu in M as (ws & ds & -> & -> & _).
    rewrite !length_app. unfold group. simpl. lia.
Qed.

(** X7. An empty file is not an error: for a name within the limit of
    [int], [extract] returns a record, and none of the fields read from the
    content is set. *)
Theorem empty_content (name : string) :
  length name <= int_max_str_digits ->
  exists r,
    extract name "" = Ok r
    /\ gpu_id r = None /\ performance_ns_day r = None
    /\ wall_time_s r = None /\ core_time_s r = None.
Proof.
  intros L.
  assert (C : all_convert name "" = true).
  { unfold all_convert, name_text.
    assert (I : forall re, In re [re_numa_name; re_task_name; re_cpubind; re_gpu] ->
                  int_okb (captured re name 1) = true).
    { intros re Hin. unfold captured.
      destruct (search re name) as [m|] eqn:E; [|reflexivity]. simpl.
      apply negb_true_iff, Nat.ltb_ge.
      pose proof (digits_within re name m Hin E). lia. }
    destruct (contains "exclusive" name);
      (rewrite I by (simpl; tauto)); reflexivity. }
  apply extract_returns_iff in C as [r H]. exists r. split; [exact H|].
  destruct (extract_fields _ _ _ H) as (_ & _ & _ & _ & Hg & Hp & Hw & Hc).
  rewrite Hg, Hp, Hw, Hc. repeat split; reflexivity.
Qed.

Lemma empty_content_witness :
  exists r, extract "exclusive_numa3.log" "" = Ok r /\ performance_ns_day r = None.
Proof.
  destruct (empty_content "exclusive_numa3.log") as (r & H & _ & P & _).
  - apply Nat.leb_le. reflexivity.
  - now exists r.
Defined.

(** ** The collector *)

(** X8. Every record of the results comes from a file of the directory
    whose name matches one of the two patterns and that parses, and carries
    the name of that file: the collector invents no record. *)
Theorem results_come_from_files (data_dir : directory) (r : LogRecord) :
  In r (parse_all_results data_dir) ->
  exists f,
    In f data_dir /\ wanted f = true
    /\ parse_gromacs_log f = Ok r /\ file r = name f.
Proof.
  unfold parse_all_results. rewrite parse_all_results_out_eq. cbn [fst].
  intros I. apply in_app_or in I.
  destruct I as [I|I]; apply in_record_of in I as (f & If & P);
    apply in_sorted_glob in If as [If M]; exists f; unfold wanted; rewrite M;
    repeat split; trivial; try apply orb_true_r; now apply parsed_file.
Qed.

Lemma results_come_from_files_witness :
  let good := mkEntry "exclusive_numa0.log" (Ok "Performance: 1.5 ns/day") in
  let other := mkEntry "notes.txt" (Ok "Performance: 9.9 ns/day") in
  exists r f,
    parse_all_results [other; good] = [r]
    /\ In f [other; good] /\ wanted f = true /\ file r = name f.
Proof.
  intros good other.
  destruct (parse_all_results [other; good]) as [|r [|r' l]] eqn:E;
    try (vm_compute in E; discriminate).
  destruct (results_come_from_files [other; good] r) as (f & If & W & _ & F).
  - rewrite E. now left.
  - exists r, f. repeat split; assumption.
Defined.

Lemma glob_wanted (data_dir : directory) (pattern : string) :
  In pattern patterns ->
  glob (filter wanted data_dir) pattern = glob data_dir pattern.
Proof.
  intros I. unfold glob. induction data_dir as [|f l IH]; [reflexivity|].
  cbn [filter]. destruct (wanted f) eqn:W; cbn [filter]; rewrite IH; [reflexivity|].
  unfold wanted in W. apply orb_false_iff in W as [W1 W2].
  destruct I as [<-|[<-|[]]]; [now rewrite W1|now rewrite W2].
Qed.

(** X9. Files whose names match neither pattern do not count: the results
    and the printed lines are those of the directory without them. *)
Theorem other_files_ignored (data_dir : directory) :
  parse_all_results_out (filter wanted data_dir) = parse_all_results_out data_dir.
Proof.
  rewrite !parse_all_results_out_eq.
  now rewrite !glob_wanted by (simpl; tauto).
Qed.

Lemma length_glob_wanted (data_dir : directory) :
  List.length (filter wanted data_dir)
  = List.length (glob data_dir "exclusive_numa*.log")
    + List.length (glob data_dir "shared_task*.log").
Proof.
  unfold glob, wanted. induction data_dir as [|f l IH]; [reflexivity|].
  cbn [filter].
  destruct (fnmatch "exclusive_numa*.log" (name f)) eqn:E1.
  - rewrite (patterns_disjoint _ E1). cbn [orb List.length]. now rewrite IH.
  - destruct (fnmatch "shared_task*.log" (name f)); cbn [orb List.length];
      rewrite IH; lia.
Qed.

(** X10. The collector prints one line for each file whose name matches a
    pattern, "Parsed" or "Error parsing": the number of lines is the number
    of such files, and it is the number of records plus the number of files
    that failed. *)
Theorem one_line_per_file (data_dir : directory) :
  List.length (snd (parse_all_results_out data_dir))
  = List.length (filter wanted data_dir)
  /\ List.length (snd (parse_all_results_out data_dir))
     = List.length (parse_all_results data_dir)
       + List.length (filter (fun f => wanted f && negb (parses f)) data_dir).
Proof.
  assert (L : List.length (snd (parse_all_results_out data_dir))
              = List.length (filter wanted data_dir)).
  { rewrite parse_all_results_out_eq. cbn [snd].
    rewrite List.length_app, !length_map, length_glob_wanted.
    f_equal; apply Permutation_length, sorted_perm. }
  split; [exact L|]. rewrite L.
  unfold parse_all_results. rewrite parse_all_results_out_eq. cbn [fst].
  rewrite List.length_app, !length_record_of.
  rewrite (Permutation_length (perm_filter parses _ _ (sorted_perm path_le _))).
  rewrite (Permutation_length
             (perm_filter parses _ _
                (sorted_perm path_le (glob data_dir "shared_task*.log")))).
  rewrite <- length_wanted. clear L.
  induction data_dir as [|f l IH]; [reflexivity|]. cbn [filter].
  destruct (wanted f), (parses f); cbn [andb negb filter List.length]; lia.
Qed.

(** Glob patterns with one star. *)

Lemma fnmatch_literal (pat s : string) :
  allb (fun c => negb (Ascii.eqb c "*")) pat = true ->
  (fnmatch pat s = true <-> s = pat).
Proof.
  revert s. induction pat as [|c pat IH]; intros s H.
  - destruct s; simpl; split; congruence.
  - cbn [allb] in H. apply andb_true_iff in H as [Hc Hp].
    apply negb_true_iff in Hc. cbn [fnmatch]. rewrite Hc.
    destruct s as [|d s]; [split; discriminate|].
    rewrite andb_true_iff, (IH s Hp). split.
    + intros [E ->]. apply Ascii.eqb_eq in E. now subst.
    + intros [= -> ->]. now rewrite Ascii.eqb_refl.
Qed.

Lemma fnmatch_star (suf s : string) :
  allb (fun c => negb (Ascii.eqb c "*")) suf = true ->
  (fnmatch (String "*" suf) s = true <-> exists mid, s = mid ++ suf).
Proof.
  intros H. induction s as [|d s IH].
  - change (fnmatch (String "*" suf) "") with (fnmatch suf "" || false).
    rewrite orb_false_r, (fnmatch_literal suf "" H). split.
    + intros <-. now exists "".
    + intros [mid E]. destruct mid; [exact E|discriminate].
  - change (fnmatch (String "*" suf) (String d s))
      with (fnmatch suf (String d s) || fnmatch (String "*" suf) s).
    rewrite orb_true_iff, (fnmatch_literal suf _ H), IH. split.
    + intros [<-|[mid ->]]; [now exists ""|now exists (String d mid)].
    + intros [[|x mid] E]; [left; exact E|right].
      injection E as -> ->. now exists mid.
Qed.

Lemma fnmatch_prefix (pre rest s : string) :
  allb (fun c => negb (Ascii.eqb c "*")) pre = true ->
  (fnmatch (pre ++ rest) s = true <->
   exists s', s = pre ++ s' /\ fnmatch rest s' = true).
Proof.
  revert s. induction pre as [|c pre IH]; intros s H.
  - simpl append. split; [intros E; now exists s|now intros [s' [-> E]]].
  - cbn [allb] in H. apply andb_true_iff in H as [Hc Hp].
    apply negb_true_iff in Hc. cbn [append fnmatch]. rewrite Hc.
    destruct s as [|d s]; [split; [discriminate|intros [s' [[=] _]]]|].
    rewrite andb_true_iff, (IH s Hp). split.
    + intros [E [s' [-> F]]]. apply Ascii.eqb_eq in E. subst. now exists s'.
    + intros [s' [[= -> ->] F]]. rewrite Ascii.eqb_refl. split; [reflexivity|].
      now exists s'.
Qed.

(** X11. The files the collector reads are those whose whole name is
    [exclusive_numa], any text, [.log], or [shared_task], any text,
    [.log]: upper case, another ending or a text before the prefix do not
    match. *)
Theorem glob_names (n : string) :
  (fnmatch "exclusive_numa*.log" n = true <->
   exists mid, n = "exclusive_numa" ++ mid ++ ".log")
  /\ (fnmatch "shared_task*.log" n = true <->
      exists mid, n = "shared_task" ++ mid ++ ".log").
Proof.
  split.
  - rewrite (fnmatch_prefix "exclusive_numa" "*.log" n eq_refl). split.
    + intros [s' [-> F]]. apply (fnmatch_star ".log" s' eq_refl) in F as [mid ->].
      now exists mid.
    + intros [mid ->]. exists (mid ++ ".log"). split; [reflexivity|].
      apply (fnmatch_star ".log" _ eq_refl). now exists mid.
  - rewrite (fnmatch_prefix "shared_task" "*.log" n eq_refl). split.
    + intros [s' [-> F]]. apply (fnmatch_star ".log" s' eq_refl) in F as [mid ->].
      now exists mid.
    + intros [mid ->]. exists (mid ++ ".log"). split; [reflexivity|].
      apply (fnmatch_star ".log" _ eq_refl). now exists mid.
Qed.

Lemma exclusive_glob_name (n : string) :
  fnmatch "exclusive_numa*.log" n = true ->
  exists mid, n = "exclusive_numa" ++ mid ++ ".log".
Proof.
  intros M. apply (fnmatch_prefix "exclusive_numa" "*.log" n eq_refl) in M.
  destruct M as [s' [-> F]].
  apply (fnmatch_star ".log" s' eq_refl) in F as [mid ->]. now exists mid.
Qed.

Lemma parsed_type (f : entry) (r : LogRecord) :
  parse_gromacs_log f = Ok r ->
  type r = (if contains "exclusive" (name f) then "exclusive" else "shared").
Proof.
  unfold parse_gromacs_log. destruct (read_text f); simpl; [|discriminate].
  intros H. now destruct (extract_fields _ _ _ H) as (_ & T & _).
Qed.

(** X12. Every record the collector returns is shown by the summary in one
    of its two tables: its category is exclusive or shared, so the two
    queues together have as many records as the results; and the record of
    a file named [exclusive_numa*.log] is in the exclusive queue. *)
Theorem collected_records_have_a_queue (data_dir : directory) :
  let results := parse_all_results data_dir in
  (forall r, In r results -> fnmatch "exclusive_numa*.log" (file r) = true ->
             In r (of_type "exclusive" results))
  /\ List.length (of_type "exclusive" results)
     + List.length (of_type "shared" results)
     = List.length results.
Proof.
  intros results.
  assert (T : forall r, In r results ->
                type r = (if contains "exclusive" (file r) then "exclusive" else "shared")).
  { intros r I. unfold results, parse_all_results in I.
    rewrite parse_all_results_out_eq in I. cbn [fst] in I.
    apply in_app_or in I.
    destruct I as [I|I]; apply in_record_of in I as (f & _ & P);
      rewrite (parsed_file _ _ P); now apply parsed_type. }
  split.
  - intros r I M. unfold of_type. apply filter_In. split; [exact I|].
    rewrite (T r I).
    destruct (exclusive_glob_name _ M) as [mid E].
    assert (C : contains "exclusive" (file r) = true).
    { apply contains_spec. exists "", ("_numa" ++ mid ++ ".log"). exact E. }
    now rewrite C.
  - clearbody results. unfold of_type.
    induction results as [|r l IH]; [reflexivity|]. cbn [filter].
    assert (Tr := T r (or_introl eq_refl)).
    assert (IH' := IH (fun x Hx => T x (or_intror Hx))).
    rewrite Tr. destruct (contains "exclusive" (file r)); simpl; lia.
Qed.

Lemma collected_records_have_a_queue_witness :
  let f := mkEntry "exclusive_numa0.log" (Ok "") in
  exists r, In r (of_type "exclusive" (parse_all_results [f]))
            /\ file r = "exclusive_numa0.log".
Proof.
  intros f.
  destruct (collected_records_have_a_queue [f]) as [Q _].
  eexists. split; [apply Q; [left; reflexivity|reflexivity]|reflexivity].
Defined.

(** ** The reporter *)

Lemma by_key_total (key : LogRecord -> option Z) (a b : LogRecord) :
  by_key key a b = true \/ by_key key b a = true.
Proof. unfold by_key. rewrite !Z.leb_le. lia. Qed.

Lemma by_key_trans (key : LogRecord -> option Z) (a b c : LogRecord) :
  by_key key a b = true -> by_key key b c = true -> by_key key a c = true.
Proof. unfold by_key. rewrite !Z.leb_le. lia. Qed.

Lemma strongly_sorted_impl {A : Type} (R S : A -> A -> Prop) (l : list A) :
  (forall a b, R a b -> S a b) -> StronglySorted R l -> StronglySorted S l.
Proof.
  intros I. induction 1 as [|x l H IH F]; constructor; [exact IH|].
  eapply Forall_impl; [|exact F]. intros b. apply I.
Qed.

(** X13. The table of a queue has one row for each record of the queue,
    in ascending order of the key (the NUMA node for the exclusive queue,
    the task id for the shared one), a record without the key counting as
    0; the average line, if any, comes after the rows. *)
Theorem rows_in_key_order (queue : list LogRecord) :
  queue <> [] ->
  (exists rows,
     exclusive_block queue
     = ([exclusive_title; exclusive_header; rule "-"%char 40]
        ++ map exclusive_row rows ++ average_lines queue)%list
     /\ Permutation rows queue
     /\ StronglySorted
          (fun a b => (or0 (numa_node a) <= or0 (numa_node b))%Z) rows)
  /\ (exists rows,
        shared_block queue
        = ([shared_title; shared_header; rule "-"%char 50]
           ++ map shared_row rows ++ average_lines queue)%list
        /\ Permutation rows queue
        /\ StronglySorted
             (fun a b => (or0 (task_id a) <= or0 (task_id b))%Z) rows).
Proof.
  intros N. split.
  - exists (sorted (by_key numa_node) queue). split; [|split].
    + unfold exclusive_block. destruct queue; [congruence|reflexivity].
    + apply sorted_perm.
    + eapply strongly_sorted_impl;
        [|apply (sorted_sorted (by_key numa_node));
          [apply by_key_total|apply by_key_trans]].
      intros a b H. now apply Z.leb_le.
  - exists (sorted (by_key task_id) queue). split; [|split].
    + unfold shared_block. destruct queue; [congruence|reflexivity].
    + apply sorted_perm.
    + eapply strongly_sorted_impl;
        [|apply (sorted_sorted (by_key task_id));
          [apply by_key_total|apply by_key_trans]].
      intros a b H. now apply Z.leb_le.
Qed.

(** Two exclusive records given with node 1 first: the row of node 0 comes
    first. *)
Lemma rows_in_key_order_witness :
  let r1 := mkRecord "exclusive_numa1.log" "exclusive" (Some 1%Z) None None
              None None None in
  let r0 := mkRecord "exclusive_numa0.log" "exclusive" (Some 0%Z) None None
              None None None in
  exists rows,
    Permutation rows [r1; r0]
    /\ StronglySorted (fun a b => (or0 (numa_node a) <= or0 (numa_node b))%Z) rows.
Proof.
  intros r1 r0.
  destruct (rows_in_key_order [r1; r0]) as [(rows & _ & P & S) _]; [discriminate|].
  now exists rows.
Defined.

(** ** The entry point *)

Lemma prefix_app (p s : string) : prefix p (p ++ s) = true.
Proof.
  induction p as [|c p IH]; simpl; [now destruct s|].
  destruct (ascii_dec c c); [exact IH|congruence].
Qed.



(** X15. When the data directory exists and no file in it both matches a
    pattern and parses, the run without [--quiet] and [--output] prints the
    line of each matching file, then "No results found." and nothing else,
    and ends with status 0. *)
Theorem no_results_run (w : world) (argv : list string) (args : Namespace)
    (dir : string) (entries : directory) :
  parse_args (default_dir w) argv = Args args ->
  data_dir args = Some dir -> quiet args = false -> output args = None ->
  listing w dir = Some entries ->
  (forall f, In f entries -> wanted f = true -> parses f = false) ->
  main w argv
  = mkRun (snd (parse_all_results_out entries) ++ ["No results found."])%list 0
  /\ Forall (fun line => prefix "Error parsing " line = true)
       (snd (parse_all_results_out entries)).
Proof.
  intros P D Q O L N.
  assert (R : fst (parse_all_results_out entries) = []).
  { destruct (fst (parse_all_results_out entries)) as [|r l] eqn:E; [reflexivity|].
    exfalso.
    assert (I : In r (parse_all_results entries))
      by (unfold parse_all_results; rewrite E; now left).
    unfold parse_all_results in I. rewrite parse_all_results_out_eq in I.
    cbn [fst] in I. apply in_app_or in I.
    destruct I as [I|I]; apply in_record_of in I as (f & If & Pf);
      apply in_sorted_glob in If as [If M];
      (assert (W : wanted f = true) by (unfold wanted; rewrite M; auto using orb_true_r));
      specialize (N f If W); unfold parses in N; rewrite Pf in N; discriminate. }
  split.
  - unfold main. rewrite P, D, L.
    destruct (parse_all_results_out entries) as [results out].
    cbn [fst snd] in *. subst results. rewrite Q. unfold save. now rewrite O.
  - rewrite parse_all_results_out_eq. cbn [snd].
    apply Forall_app. split; apply Forall_forall; intros line I;
      apply in_map_iff in I as (f & <- & If);
      apply in_sorted_glob in If as [If M];
      (assert (W : wanted f = true) by (unfold wanted; rewrite M; auto using orb_true_r));
      specialize (N f If W); unfold parses in N; unfold message;
      destruct (parse_gromacs_log f); solve [discriminate | apply prefix_app].
Qed.

(** An existing directory that holds only a file that does not decode. *)
Lemma no_results_run_witness :
  let corrupt :=
    mkEntry "shared_task0.log" (Raise (UnicodeDecodeError "invalid start byte")) in
  let w := mkWorld "data/gromacs" (fun _ => Some [corrupt]) (fun _ => true) in
  main w []
  = mkRun ["Error parsing shared_task0.log: invalid start byte";
           "No results found."] 0.
Proof.
  intros corrupt w.
  destruct (no_results_run w [] (mkNamespace (Some "data/gromacs") None false)
              "data/gromacs" [corrupt] eq_refl eq_refl eq_refl eq_refl eq_refl)
    as [M _].
  - intros f [<-|[]] _. reflexivity.
  - exact M.
Defined.

(** ** Integers as text *)

Lemma digits_val_acc (s : string) :
  forall acc, digits_val acc s = (acc * 10 ^ Z.of_nat (length s) + digits_val 0 s)%Z.
Proof.
  induction s as [|c s IH]; intros acc; cbn [digits_val length].
  - simpl. lia.
  - rewrite (IH (10 * acc + digit_val c)%Z), (IH (10 * 0 + digit_val c)%Z).
    rewrite Nat2Z.inj_succ, Z.pow_succ_r by lia. ring.
Qed.

Lemma digit_char_digit (d : Z) :
  (0 <= d < 10)%Z -> is_digit (digit_char d) = true /\ digit_val (digit_char d) = d.
Proof.
  intros H.
  assert (C : (d = 0 \/ d = 1 \/ d = 2 \/ d = 3 \/ d = 4 \/ d = 5 \/ d = 6
               \/ d = 7 \/ d = 8 \/ d = 9)%Z) by lia.
  repeat (destruct C as [->|C]; [split; reflexivity|]). subst. split; reflexivity.
Qed.

(** The digits written for [n], read back after the text [t]. *)
Lemma digits_rev_value (fuel : nat) :
  forall n t,
    (0 <= n < 10 ^ Z.of_nat (S fuel))%Z ->
    digits_val 0 (rev_string t (digits_rev (S fuel) n))
    = (n * 10 ^ Z.of_nat (length t) + digits_val 0 t)%Z
    /\ (allb is_digit t = true ->
        allb is_digit (rev_string t (digits_rev (S fuel) n)) = true)
    /\ length t < length (rev_string t (digits_rev (S fuel) n)) <= S fuel + length t.
Proof.
  assert (Small : forall f n t,
            (0 <= n < 10)%Z ->
            digits_val 0 (rev_string t (digits_rev (S f) n))
            = (n * 10 ^ Z.of_nat (length t) + digits_val 0 t)%Z
            /\ (allb is_digit t = true ->
                allb is_digit (rev_string t (digits_rev (S f) n)) = true)
            /\ length t < length (rev_string t (digits_rev (S f) n)) <= S f + length t).
  { intros f n t L. cbn [digits_rev].
    destruct (Z.ltb_spec n 10) as [_|G]; [|lia].
    destruct (digit_char_digit n L) as [D V].
    cbn [rev_string digits_val allb length].
    rewrite digits_val_acc, V, D. repeat split; auto; lia. }
  induction fuel as [|fuel IH]; intros n t H.
  - apply Small. simpl in H. lia.
  - destruct (Z.ltb_spec n 10) as [L|L]; [apply Small; lia|].
    change (digits_rev (S (S fuel)) n)
      with (if (n <? 10)%Z then String (digit_char n) EmptyString
            else String (digit_char (n mod 10)) (digits_rev (S fuel) (n / 10))).
    destruct (Z.ltb_spec n 10) as [G|_]; [lia|]. cbn [rev_string].
    rewrite Nat2Z.inj_succ, Z.pow_succ_r in H by lia.
    destruct (digit_char_digit (n mod 10)) as [D V];
      [apply Z.mod_pos_bound; lia|].
    destruct (IH (n / 10)%Z (String (digit_char (n mod 10)) t)) as (E & A & B).
    { split; [apply Z.div_pos; lia|]. apply Z.div_lt_upper_bound; lia. }
    cbn [allb length] in *. rewrite D in A.
    repeat split; try lia; [|exact A].
    rewrite E. cbn [digits_val]. rewrite (digits_val_acc t), V.
    rewrite Nat2Z.inj_succ, Z.pow_succ_r by lia.
    pose proof (Z.div_mod n 10 ltac:(lia)) as DM.
    set (q := (n / 10)%Z) in *. set (m := (n mod 10)%Z) in *.
    rewrite DM. ring.
Qed.

(** X16. What the summary prints for an integer reads back as that
    integer: for a value that is not negative and is below [2^4300], the
    text is a non-empty run of digits within the limit of [int], and [int]
    of it is the value. *)
Theorem int_text_round_trip (v : Z) :
  (0 <= v)%Z -> (Z.log2 v < 4300)%Z ->
  run_of is_digit (str_Z v) = true /\ py_int (str_Z v) = Ok v.
Proof.
  intros H B.
  assert (F : (0 <= v < 10 ^ Z.of_nat (S (Z.to_nat (Z.log2 v))))%Z).
  { split; [exact H|]. rewrite Nat2Z.inj_succ, Z2Nat.id by apply Z.log2_nonneg.
    destruct (Z.eq_dec v 0) as [->|N]; [reflexivity|].
    destruct (Z.log2_spec v) as [_ U]; [lia|].
    eapply Z.lt_le_trans; [exact U|].
    apply Z.pow_le_mono_l. pose proof (Z.log2_nonneg v). lia. }
  destruct (digits_rev_value (Z.to_nat (Z.log2 v)) v "" F) as (E & A & L1 & L2).
  specialize (A eq_refl). cbn [length digits_val] in *.
  unfold str_Z. destruct (v <? 0)%Z eqn:Neg; [apply Z.ltb_lt in Neg; lia|].
  fold (str_nat v) in *.
  assert (R : run_of is_digit (str_nat v) = true).
  { apply run_of_spec. split; [exact A|]. intros Z0. rewrite Z0 in L1. simpl in L1. lia. }
  split; [exact R|]. unfold py_int. rewrite R. cbn [negb].
  assert (S : (int_max_str_digits <? length (str_nat v))%nat = false).
  { apply Nat.ltb_ge. unfold int_max_str_digits. lia. }
  rewrite S. unfold int_val. rewrite E. f_equal. lia.
Qed.

Lemma int_text_round_trip_witness : py_int (str_Z 1234567890) = Ok 1234567890%Z.
Proof.
  apply (int_text_round_trip 1234567890); [lia|reflexivity].
Defined.
